(** * Manchester United Hub: the forum's domain logic

    A shallow embedding of the page handlers of the forum (CreatePost,
    PostPage, EditPost, HomeFeed) and of the remote record store they talk
    to, followed by the properties of the specification that were checked
    against them.

    Conventions of the embedding.
    - A JavaScript string is a [string]: a sequence of 8-bit code units,
      that is, the Latin-1 range of JavaScript's UTF-16 strings.
    - A JavaScript number that holds a count or a time in milliseconds is
      a [Z].  Times stay far inside the range where JavaScript's
      arithmetic on integers is exact; the addition that counts an upvote
      is the addition of doubles ([JS.add_one]).
    - A nullable column is an [option].
    - A handler is a state transformer over a [World]: the remote store
      together with the trace of everything the handler did that can be
      observed from outside (requests, alerts, console output,
      navigation), in program order.  What the store answers to a request
      (failure or not, the identifier and the clock it uses for a new row)
      and the outcome of [Math.random] are inputs of the handler. *)

From Stdlib Require Import ZArith List String Ascii Bool Lia DecimalString.
From Stdlib Require Import Permutation Sorted.
Import ListNotations.

Open Scope string_scope.
Open Scope Z_scope.

(* ================================================================== *)
(** ** JavaScript built-ins used by the pages *)
(* ================================================================== *)

Module JS.

(** White space of [String.prototype.trim] among the code units below 256:
    TAB, LF, VT, FF, CR, SPACE and NO-BREAK SPACE. *)
Definition is_white_space (c : ascii) : bool :=
  let n := N_of_ascii c in
  ((9 <=? n) && (n <=? 13) || (n =? 32) || (n =? 160))%N.

Fixpoint trimStart (s : string) : string :=
  match s with
  | EmptyString => EmptyString
  | String c r => if is_white_space c then trimStart r else s
  end.

Fixpoint trimEnd (s : string) : string :=
  match s with
  | EmptyString => EmptyString
  | String c r =>
      match trimEnd r with
      | EmptyString => if is_white_space c then EmptyString else String c EmptyString
      | r' => String c r'
      end
  end.

Definition trim (s : string) : string := trimEnd (trimStart s).

(** Truthiness of a string: only the empty string is falsy. *)
Definition truthy (s : string) : bool :=
  match s with
  | EmptyString => false
  | String _ _ => true
  end.

(** [String.prototype.toLowerCase] on the code units below 256: the
    letters A-Z and the accented capitals U+00C0-U+00DE (without the
    multiplication sign U+00D7) move up by 32. *)
Definition lower_char (c : ascii) : ascii :=
  let n := N_of_ascii c in
  if ((65 <=? n) && (n <=? 90)
      || (192 <=? n) && (n <=? 222) && negb (n =? 215))%N
  then ascii_of_N (n + 32)
  else c.

Fixpoint toLowerCase (s : string) : string :=
  match s with
  | EmptyString => EmptyString
  | String c r => String (lower_char c) (toLowerCase r)
  end.

(** [s.includes(sub)]: [sub] occurs in [s] as a contiguous substring. *)
Fixpoint includes (s sub : string) : bool :=
  if String.prefix sub s then true
  else
    match s with
    | EmptyString => false
    | String _ r => includes r sub
    end.

(** [flags.includes(flag)] on an array of strings. *)
Definition array_includes (l : list string) (x : string) : bool :=
  existsb (String.eqb x) l.

(** [text.split(" ")]: the pieces between single spaces; never empty. *)
Fixpoint split_space (s : string) : list string :=
  match s with
  | EmptyString => [EmptyString]
  | String c r =>
      if Ascii.eqb c " " then EmptyString :: split_space r
      else
        match split_space r with
        | [] => [String c EmptyString]
        | w :: ws => String c w :: ws
        end
  end.

(** [words.join(" ")]. *)
Fixpoint join_space (l : list string) : string :=
  match l with
  | [] => EmptyString
  | [w] => w
  | w :: ws => w ++ " " ++ join_space ws
  end.

(** [arr.slice(0, e)] for an integer [e]: a negative end counts from the
    end of the array, and the end is clamped to the array's bounds. *)
Definition slice0 {A} (arr : list A) (e : Z) : list A :=
  let len := Z.of_nat (List.length arr) in
  let final := if e <? 0 then Z.max (len + e) 0 else Z.min e len in
  firstn (Z.to_nat final) arr.

(** Template-literal rendering of an integer-valued number. *)
Definition toString (n : Z) : string := NilZero.string_of_int (Z.to_int n).

(** [n + 1] for a number [n] that holds an integer.  A double holds
    every integer up to 2^53 = 9007199254740992 in absolute value, every
    second one up to 2^54 = 18014398509481984, and fewer beyond; the sum
    is the nearest number a double holds, and of two nearest ones the one
    with the even significand. *)
Definition add_one (n : Z) : Z :=
  if (- 9007199254740992 <=? n) && (n <? 9007199254740992) then n + 1
  else if (- 18014398509481984 <? n) && (n <? 18014398509481984) then
    if n mod 4 =? 0 then n else n + 2
  else n.

(** [a !== b] for a string [a] and a nullable string [b]. *)
Definition strict_neq (a : string) (b : option string) : bool :=
  match b with
  | Some b' => negb (String.eqb a b')
  | None => true
  end.

End JS.

(* ================================================================== *)
(** ** Data model: the rows of the two tables *)
(* ================================================================== *)

Module Post.
Record t : Type := mk {
  id : string;
  title : string;
  content : option string;
  image_url : option string;
  upvotes : Z;
  created_at : Z;
  user_id : string;
  secret_key : option string;
  flags : option (list string);
  repost_id : option string
}.
End Post.

Module Comment.
Record t : Type := mk {
  id : string;
  post_id : string;
  content : string;
  created_at : Z;
  user_id : string
}.
End Comment.

(* ================================================================== *)
(** ** HomeFeed: the derived views *)
(* ================================================================== *)

Module HomeFeed.

(** The predicate of [posts.filter(...)] in [filteredPosts]. *)
Definition matches (searchTerm filterFlag : string) (post : Post.t) : bool :=
  let matchesSearch :=
    JS.includes (JS.toLowerCase (Post.title post)) (JS.toLowerCase searchTerm) in
  let matchesFlag :=
    negb (JS.truthy filterFlag)
    || match Post.flags post with
       | Some fl => JS.array_includes fl filterFlag
       | None => false
       end in
  matchesSearch && matchesFlag.

Definition filteredPosts (posts : list Post.t) (searchTerm filterFlag : string)
  : list Post.t :=
  filter (matches searchTerm filterFlag) posts.

(** [now] is [new Date().getTime()], [date] is
    [new Date(dateString).getTime()], both in milliseconds. *)
Definition formatTimeAgo (now date : Z) : string :=
  let diffInHours := (now - date) / (1000 * 60 * 60) in
  if diffInHours <? 1 then "Just now"
  else if diffInHours <? 24 then JS.toString diffInHours ++ "h ago"
  else JS.toString (diffInHours / 24) ++ "d ago".

Definition truncateText (text : string) (maxWords : Z) : string :=
  let words := JS.split_space text in
  if Z.of_nat (List.length words) <=? maxWords then text
  else JS.join_space (JS.slice0 words maxWords) ++ "...".

End HomeFeed.

(* ================================================================== *)
(** ** The remote record store and the world a handler runs in *)
(* ================================================================== *)

Record Store : Type := mkStore {
  posts : list Post.t;
  comments : list Comment.t
}.

Inductive verb : Type := Insert | Select | Update | Delete.

(** Everything a handler does that is visible from outside. *)
Inductive effect : Type :=
| Request (v : verb) (table : string) (filter : option (string * string))
| Alert (msg : string)
| ConsoleError (msg : string)
| Navigate (path : string).

Record World : Type := mkWorld {
  db : Store;
  trace : list effect
}.

(** The answer of the store client: [{ data, error }]. *)
Inductive result (A : Type) : Type :=
| Data (data : A)
| Error (error : string).
Arguments Data {A} data.
Arguments Error {A} error.

(** How the remote store treats one request: the error it answers with,
    if any, and, for a new row, the identifier and the clock it uses. *)
Record Remote : Type := mkRemote {
  failure : option string;
  new_id : string;
  clock : Z
}.

Definition M (A : Type) : Type := World -> A * World.

Definition ret {A} (a : A) : M A := fun w => (a, w).

Definition bind {A B} (m : M A) (k : A -> M B) : M B :=
  fun w => let (a, w') := m w in k a w'.

Notation "x <- m ;; k" := (bind m (fun x => k))
  (at level 61, m at next level, right associativity).
Notation "m ;; k" := (bind m (fun _ => k))
  (at level 61, right associativity).

Definition emit (e : effect) : M unit :=
  fun w => (tt, mkWorld (db w) (trace w ++ [e])).

Definition alert (msg : string) : M unit := emit (Alert msg).
Definition console_error (msg : string) : M unit := emit (ConsoleError msg).
Definition navigate (path : string) : M unit := emit (Navigate path).

Definition modify (f : Store -> Store) : M unit :=
  fun w => (tt, mkWorld (f (db w)) (trace w)).

Definition read {A} (f : Store -> A) : M A :=
  fun w => (f (db w), w).

(** A request that the store refuses changes nothing. *)
Definition send (v : verb) (table : string) (filter : option (string * string))
  (failure : option string) (run : Store -> Store) : M (option string) :=
  emit (Request v table filter) ;;
  match failure with
  | Some e => ret (Some e)
  | None => modify run ;; ret None
  end.

Module Table.

Definition has_id (i : string) (r : Post.t) : bool := String.eqb (Post.id r) i.

Definition of_post (i : string) (c : Comment.t) : bool :=
  String.eqb (Comment.post_id c) i.

(** Modelled from the spec: the defaults of the [posts] table, whose
    definition is not among the sources.  The store assigns the [id],
    sets [upvotes] to 0 and [created_at] to its clock; the other columns
    are the ones the client sends. *)
Definition new_post (srv : Remote) (title content image_url secret_key
  user_id : string) (repost_id : option string) (flags : list string) : Post.t :=
  Post.mk (new_id srv) title (Some content) (Some image_url) 0 (clock srv) user_id
    (Some secret_key) (Some flags) repost_id.

(** Modelled from the spec: the defaults of the [comments] table (a
    store-assigned [id], [created_at] set to the store's clock). *)
Definition new_comment (srv : Remote) (post_id content user_id : string)
  : Comment.t :=
  Comment.mk (new_id srv) post_id content (clock srv) user_id.

(** [from("posts").insert([row]).select().single()] *)
Definition insert_post (srv : Remote) (row : Post.t) : M (result Post.t) :=
  e <- send Insert "posts" None (failure srv)
         (fun s => mkStore (posts s ++ [row]) (comments s)) ;;
  match e with
  | Some e => ret (Error e)
  | None => ret (Data row)
  end.

(** [from("comments").insert([row]).select().single()] *)
Definition insert_comment (srv : Remote) (row : Comment.t) : M (result Comment.t) :=
  e <- send Insert "comments" None (failure srv)
         (fun s => mkStore (posts s) (comments s ++ [row])) ;;
  match e with
  | Some e => ret (Error e)
  | None => ret (Data row)
  end.

(** [from("posts").select("*").eq("id", i).single()]: an error unless
    exactly one row has this id. *)
Definition select_post (failure : option string) (i : string) : M (result Post.t) :=
  e <- send Select "posts" (Some ("id", i)) failure (fun s => s) ;;
  match e with
  | Some e => ret (Error e)
  | None =>
      rows <- read (fun s => filter (has_id i) (posts s)) ;;
      match rows with
      | [row] => ret (Data row)
      | _ => ret (Error "PGRST116")
      end
  end.

(** [from("posts").update(columns).eq("id", i)]: [set] overwrites the
    columns sent, in every row with this id. *)
Definition update_post (failure : option string) (i : string)
  (set : Post.t -> Post.t) : M (option string) :=
  send Update "posts" (Some ("id", i)) failure
    (fun s => mkStore (map (fun r => if has_id i r then set r else r) (posts s))
                      (comments s)).

(** [from("comments").delete().eq("post_id", i)] *)
Definition delete_comments (failure : option string) (i : string) : M (option string) :=
  send Delete "comments" (Some ("post_id", i)) failure
    (fun s => mkStore (posts s) (filter (fun c => negb (of_post i c)) (comments s))).

(** [from("posts").delete().eq("id", i)] *)
Definition delete_post (failure : option string) (i : string) : M (option string) :=
  send Delete "posts" (Some ("id", i)) failure
    (fun s => mkStore (filter (fun r => negb (has_id i r)) (posts s)) (comments s)).

End Table.

(** The columns an update overwrites. *)
Definition set_upvotes (n : Z) (r : Post.t) : Post.t :=
  Post.mk (Post.id r) (Post.title r) (Post.content r) (Post.image_url r) n
    (Post.created_at r) (Post.user_id r) (Post.secret_key r) (Post.flags r)
    (Post.repost_id r).

Definition set_fields (title content image_url : string) (flags : list string)
  (r : Post.t) : Post.t :=
  Post.mk (Post.id r) title (Some content) (Some image_url) (Post.upvotes r)
    (Post.created_at r) (Post.user_id r) (Post.secret_key r) (Some flags)
    (Post.repost_id r).

(* ================================================================== *)
(** ** CreatePost *)
(* ================================================================== *)

Module CreatePost.

Record FormData : Type := mkForm {
  title : string;
  content : string;
  image_url : string;
  secret_key : string;
  flags : list string
}.

(** [userId] is the outcome of
    [Math.random().toString(36).substring(2, 15)]. *)
Definition handleSubmit (userId : string) (srv : Remote) (formData : FormData)
  : M unit :=
  if negb (JS.truthy (JS.trim (title formData))) then
    alert "Title is required"
  else
    r <- Table.insert_post srv
           (Table.new_post srv (title formData) (content formData)
              (image_url formData) (secret_key formData) userId None
              (flags formData)) ;;
    match r with
    | Data data => navigate ("/post/" ++ Post.id data)
    | Error _ =>
        console_error "Error creating post:" ;;
        alert "Error creating post. Please try again."
    end.

End CreatePost.

(* ================================================================== *)
(** ** PostPage *)
(* ================================================================== *)

Module PostPage.

Record State : Type := mkState {
  id : string;
  post : option Post.t;
  comments : list Comment.t;
  newComment : string;
  secretKey : string
}.

Definition init (i : string) : State := mkState i None [] "" "".

Definition setPost (p : Post.t) (st : State) : State :=
  mkState (id st) (Some p) (comments st) (newComment st) (secretKey st).

Definition setSecretKey (k : string) (st : State) : State :=
  mkState (id st) (post st) (comments st) (newComment st) k.

Definition setNewComment (c : string) (st : State) : State :=
  mkState (id st) (post st) (comments st) c (secretKey st).

Definition setComments (cs : list Comment.t) (st : State) : State :=
  mkState (id st) (post st) cs (newComment st) (secretKey st).

Definition fetchPost (failure : option string) (st : State) : M State :=
  r <- Table.select_post failure (id st) ;;
  match r with
  | Data data => ret (setPost data st)
  | Error _ => console_error "Error fetching post:" ;; ret st
  end.

Definition handleUpvote (failure : option string) (st : State) : M State :=
  match post st with
  | None => ret st
  | Some post =>
      e <- Table.update_post failure (Post.id post)
             (set_upvotes (JS.add_one (Post.upvotes post))) ;;
      match e with
      | None => ret (setPost (set_upvotes (JS.add_one (Post.upvotes post)) post) st)
      | Some _ => console_error "Error upvoting:" ;; ret st
      end
  end.

Definition handleAddComment (userId : string) (srv : Remote) (st : State)
  : M State :=
  if negb (JS.truthy (JS.trim (newComment st))) then ret st
  else
    r <- Table.insert_comment srv
           (Table.new_comment srv (id st) (newComment st) userId) ;;
    match r with
    | Data data => ret (setNewComment "" (setComments (comments st ++ [data]) st))
    | Error _ => console_error "Error adding comment:" ;; ret st
    end.

Definition handleDelete (commentsFailure postFailure : option string)
  (st : State) : M State :=
  match post st with
  | None => alert "Invalid secret key" ;; ret st
  | Some post =>
      if JS.strict_neq (secretKey st) (Post.secret_key post) then
        alert "Invalid secret key" ;; ret st
      else
        commentsError <- Table.delete_comments commentsFailure (Post.id post) ;;
        match commentsError with
        | Some _ => console_error "Error deleting comments:"
        | None => ret tt
        end ;;
        postError <- Table.delete_post postFailure (Post.id post) ;;
        match postError with
        | Some _ =>
            console_error "Error deleting post:" ;;
            alert "Failed to delete post. Please try again." ;;
            ret st
        | None =>
            alert "Post and all associated comments deleted successfully!" ;;
            navigate "/" ;;
            ret st
        end
  end.

End PostPage.

(* ================================================================== *)
(** ** EditPost *)
(* ================================================================== *)

Module EditPost.

Record FormData : Type := mkForm {
  title : string;
  content : string;
  image_url : string;
  flags : list string
}.

Record State : Type := mkState {
  id : string;
  post : option Post.t;
  formData : FormData;
  secretKey : string
}.

Definition init (i : string) : State := mkState i None (mkForm "" "" "" []) "".

Definition setSecretKey (k : string) (st : State) : State :=
  mkState (id st) (post st) (formData st) k.

Definition setFormData (f : FormData) (st : State) : State :=
  mkState (id st) (post st) f (secretKey st).

(** [x || []] on a nullable array. *)
Definition or_empty (l : option (list string)) : list string :=
  match l with
  | Some l => l
  | None => []
  end.

(** [x || ""] on a nullable string. *)
Definition or_blank (x : option string) : string :=
  match x with
  | Some s => if JS.truthy s then s else ""
  | None => ""
  end.

Definition fetchPost (failure : option string) (st : State) : M State :=
  r <- Table.select_post failure (id st) ;;
  match r with
  | Data data =>
      ret (mkState (id st) (Some data)
             (mkForm (Post.title data) (or_blank (Post.content data))
                (or_blank (Post.image_url data)) (or_empty (Post.flags data)))
             (secretKey st))
  | Error _ => console_error "Error fetching post:" ;; ret st
  end.

Definition handleSubmit (failure : option string) (st : State) : M unit :=
  match post st with
  | None => alert "Invalid secret key"
  | Some post =>
      if JS.strict_neq (secretKey st) (Post.secret_key post) then
        alert "Invalid secret key"
      else if negb (JS.truthy (JS.trim (title (formData st)))) then
        alert "Title is required"
      else
        e <- Table.update_post failure (Post.id post)
               (set_fields (title (formData st)) (content (formData st))
                  (image_url (formData st)) (flags (formData st))) ;;
        match e with
        | None => navigate ("/post/" ++ Post.id post)
        | Some _ =>
            console_error "Error updating post:" ;;
            alert "Error updating post. Please try again."
        end
  end.

End EditPost.

(* ================================================================== *)
(** ** The operations of the specification, as the pages perform them *)
(* ================================================================== *)

(** How the specification names what the handlers signal. *)
Definition ValidationError : effect := Alert "Title is required".
Definition UnauthorizedError : effect := Alert "Invalid secret key".

(** [createPost]: the form is filled in and submitted. *)
Definition createPost (userId : string) (srv : Remote)
  (title content image_url secret_key : string) (flags : list string) : M unit :=
  CreatePost.handleSubmit userId srv
    (CreatePost.mkForm title content image_url secret_key flags).

(** [updatePost]: the edit page of post [i] loads the post, the user
    enters the key and the fields, and submits. *)
Definition updatePost (fetchFailure updateFailure : option string)
  (i secret_key : string) (fields : EditPost.FormData) : M unit :=
  st <- EditPost.fetchPost fetchFailure (EditPost.init i) ;;
  EditPost.handleSubmit updateFailure
    (EditPost.setSecretKey secret_key (EditPost.setFormData fields st)).

(** [deletePost]: the page of post [i] loads the post, the user enters
    the key and confirms. *)
Definition deletePost (fetchFailure commentsFailure postFailure : option string)
  (i secret_key : string) : M unit :=
  st <- PostPage.fetchPost fetchFailure (PostPage.init i) ;;
  PostPage.handleDelete commentsFailure postFailure
    (PostPage.setSecretKey secret_key st) ;;
  ret tt.

(** One call of [handleUpvote] after the other; [failures] holds the
    store's answer to each call. *)
Fixpoint upvotes (failures : list (option string)) (st : PostPage.State)
  : M PostPage.State :=
  match failures with
  | [] => ret st
  | f :: fs => st' <- PostPage.handleUpvote f st ;; upvotes fs st'
  end.

(** [upvote] called once per element of [failures] on the page of post [i]. *)
Definition upvote (fetchFailure : option string) (failures : list (option string))
  (i : string) : M PostPage.State :=
  st <- PostPage.fetchPost fetchFailure (PostPage.init i) ;;
  upvotes failures st.

(** [addComment]: the user types the comment on the page and posts it. *)
Definition addComment (userId : string) (srv : Remote) (content : string)
  (st : PostPage.State) : M PostPage.State :=
  PostPage.handleAddComment userId srv (PostPage.setNewComment content st).

(** [getPost]: the row with this id, when there is exactly one. *)
Definition getPost (i : string) (s : Store) : option Post.t :=
  match filter (Table.has_id i) (posts s) with
  | [row] => Some row
  | _ => None
  end.

(** A handler run against a store, from an empty trace. *)
Definition run {A} (m : M A) (s : Store) : A * World := m (mkWorld s []).

(** The store a run leaves behind, and what the run did. *)
Definition store_after {A} (m : M A) (s : Store) : Store := db (snd (run m s)).
Definition effects {A} (m : M A) (s : Store) : list effect := trace (snd (run m s)).

(** The number of requests the store accepted. *)
Definition accepted (failures : list (option string)) : nat :=
  List.length (filter (fun f => match f with None => true | Some _ => false end)
                 failures).

(** The words of a text, as the specification speaks of words: the
    stretches of characters between spaces.  Spaces that follow one
    another, or that begin or end the text, enclose no word. *)
Definition words (text : string) : list string :=
  filter JS.truthy (JS.split_space text).


(** The rows an accepted edit and an accepted delete leave. *)
Definition edited (i : string) (fields : EditPost.FormData) (s : Store) : Store :=
  mkStore
    (map (fun r =>
            if Table.has_id i r
            then set_fields (EditPost.title fields) (EditPost.content fields)
                   (EditPost.image_url fields) (EditPost.flags fields) r
            else r)
       (posts s))
    (comments s).

Definition without_post (i : string) (s : Store) : Store :=
  mkStore (filter (fun r => negb (Table.has_id i r)) (posts s)) (comments s).

Definition without_comments (i : string) (s : Store) : Store :=
  mkStore (posts s) (filter (fun c => negb (Table.of_post i c)) (comments s)).

(** The rows an accepted upvote request leaves. *)
Definition upvoted (i : string) (n : Z) (s : Store) : Store :=
  mkStore
    (map (fun r => if Table.has_id i r then set_upvotes n r else r) (posts s))
    (comments s).

(* ================================================================== *)
(** ** The forms: typing and ticking *)
(* ================================================================== *)

(** The values of [availableFlags]. *)
Definition availableFlags : list string :=
  ["Question"; "Opinion"; "News"; "Discussion"].

(** [flags.includes(flag) ? flags.filter((f) => f !== flag)
                          : [...flags, flag]] *)
Definition toggled (flag : string) (flags : list string) : list string :=
  if JS.array_includes flags flag
  then filter (fun f => negb (String.eqb f flag)) flags
  else flags ++ [flag].

Module CreateForm.

(** [setFormData({ ...formData, [e.target.name]: e.target.value })]; the
    inputs of the page are named title, content, image_url and
    secret_key.  Under the name flags the text typed would take the place
    of the list of flags, which is no [FormData] any more: [None].  Any
    other name adds a property that no code reads. *)
Definition handleChange (name value : string) (formData : CreatePost.FormData)
  : option CreatePost.FormData :=
  if String.eqb name "title" then
    Some (CreatePost.mkForm value (CreatePost.content formData)
            (CreatePost.image_url formData) (CreatePost.secret_key formData)
            (CreatePost.flags formData))
  else if String.eqb name "content" then
    Some (CreatePost.mkForm (CreatePost.title formData) value
            (CreatePost.image_url formData) (CreatePost.secret_key formData)
            (CreatePost.flags formData))
  else if String.eqb name "image_url" then
    Some (CreatePost.mkForm (CreatePost.title formData)
            (CreatePost.content formData) value
            (CreatePost.secret_key formData) (CreatePost.flags formData))
  else if String.eqb name "secret_key" then
    Some (CreatePost.mkForm (CreatePost.title formData)
            (CreatePost.content formData) (CreatePost.image_url formData) value
            (CreatePost.flags formData))
  else if String.eqb name "flags" then None
  else Some formData.

Definition handleFlagToggle (flag : string) (prev : CreatePost.FormData)
  : CreatePost.FormData :=
  CreatePost.mkForm (CreatePost.title prev) (CreatePost.content prev)
    (CreatePost.image_url prev) (CreatePost.secret_key prev)
    (toggled flag (CreatePost.flags prev)).

(** The state of the form when the page opens. *)
Definition init : CreatePost.FormData := CreatePost.mkForm "" "" "" "" [].

End CreateForm.

Module EditForm.

(** As on the create page; the inputs are named title, content and
    image_url. *)
Definition handleChange (name value : string) (formData : EditPost.FormData)
  : option EditPost.FormData :=
  if String.eqb name "title" then
    Some (EditPost.mkForm value (EditPost.content formData)
            (EditPost.image_url formData) (EditPost.flags formData))
  else if String.eqb name "content" then
    Some (EditPost.mkForm (EditPost.title formData) value
            (EditPost.image_url formData) (EditPost.flags formData))
  else if String.eqb name "image_url" then
    Some (EditPost.mkForm (EditPost.title formData) (EditPost.content formData)
            value (EditPost.flags formData))
  else if String.eqb name "flags" then None
  else Some formData.

Definition handleFlagToggle (flag : string) (prev : EditPost.FormData)
  : EditPost.FormData :=
  EditPost.mkForm (EditPost.title prev) (EditPost.content prev)
    (EditPost.image_url prev) (toggled flag (EditPost.flags prev)).

End EditForm.

(* ================================================================== *)
(** ** Listing: ordered selections, the feed and the thread *)
(* ================================================================== *)

(** Modelled from the spec: how the store orders the rows of a selection.
    Rows are ordered by the chosen column, and rows that agree on it stay
    in the order the table has them. *)
Fixpoint insert_by {A} (before : A -> A -> bool) (x : A) (l : list A) : list A :=
  match l with
  | [] => [x]
  | y :: l' => if before x y then x :: y :: l' else y :: insert_by before x l'
  end.

Definition order_by {A} (before : A -> A -> bool) (l : list A) : list A :=
  fold_right (insert_by before) [] l.

Definition ascending {A} (key : A -> Z) (x y : A) : bool := key x <=? key y.
Definition descending {A} (key : A -> Z) (x y : A) : bool := key y <=? key x.

(** A JavaScript object used as a map from row identifiers to numbers.
    The properties every object inherits are outside the model. *)
Module Obj.

Definition t : Type := list (string * Z).

Fixpoint get (o : t) (k : string) : option Z :=
  match o with
  | [] => None
  | (k', v) :: o' => if String.eqb k' k then Some v else get o' k
  end.

Fixpoint set (o : t) (k : string) (v : Z) : t :=
  match o with
  | [] => [(k, v)]
  | (k', v') :: o' =>
      if String.eqb k' k then (k, v) :: o' else (k', v') :: set o' k v
  end.

(** [x || 0] on a number that may be undefined. *)
Definition or_zero (x : option Z) : Z :=
  match x with
  | Some v => v
  | None => 0
  end.

End Obj.

Module Feed.

Inductive sortBy : Type := by_created_at | by_upvotes.

Definition column (col : sortBy) (p : Post.t) : Z :=
  match col with
  | by_created_at => Post.created_at p
  | by_upvotes => Post.upvotes p
  end.

Definition column_name (col : sortBy) : string :=
  match col with
  | by_created_at => "created_at"
  | by_upvotes => "upvotes"
  end.

(** [from("comments").select("post_id").in("post_id", postIds)] *)
Definition select_post_ids (failure : option string) (postIds : list string)
  : M (result (list string)) :=
  e <- send Select "comments" (Some ("post_id", String.concat "," postIds))
         failure (fun s => s) ;;
  match e with
  | Some e => ret (Error e)
  | None =>
      rows <- read (fun s =>
                filter (fun c => JS.array_includes postIds (Comment.post_id c))
                  (comments s)) ;;
      ret (Data (map Comment.post_id rows))
  end.

(** [from("posts").select("*").order(sortBy, { ascending: false })] *)
Definition select_posts (failure : option string) (col : sortBy)
  : M (result (list Post.t)) :=
  e <- send Select "posts" (Some ("order", column_name col ++ ".desc"))
         failure (fun s => s) ;;
  match e with
  | Some e => ret (Error e)
  | None =>
      rows <- read (fun s => order_by (descending (column col)) (posts s)) ;;
      ret (Data rows)
  end.

Record State : Type := mkState {
  posts : list Post.t;
  commentCounts : Obj.t;
  loading : bool;
  sort : sortBy;
  searchTerm : string;
  filterFlag : string
}.

Definition init : State := mkState [] [] true by_created_at "" "".

Definition setPosts (ps : list Post.t) (st : State) : State :=
  mkState ps (commentCounts st) (loading st) (sort st) (searchTerm st)
    (filterFlag st).

Definition setCommentCounts (c : Obj.t) (st : State) : State :=
  mkState (posts st) c (loading st) (sort st) (searchTerm st) (filterFlag st).

Definition setLoading (b : bool) (st : State) : State :=
  mkState (posts st) (commentCounts st) b (sort st) (searchTerm st)
    (filterFlag st).

(** The two [forEach] loops of [fetchCommentCounts]. *)
Definition count (postIds data : list string) : Obj.t :=
  let counts := fold_left (fun counts id => Obj.set counts id 0) postIds [] in
  fold_left
    (fun counts post_id =>
       Obj.set counts post_id (Obj.or_zero (Obj.get counts post_id) + 1))
    data counts.

Definition fetchCommentCounts (failure : option string) (postIds : list string)
  (st : State) : M State :=
  r <- select_post_ids failure postIds ;;
  match r with
  | Data data => ret (setCommentCounts (count postIds data) st)
  | Error _ => console_error "Error fetching comment counts:" ;; ret st
  end.

Definition fetchPosts (postsFailure countsFailure : option string) (st : State)
  : M State :=
  r <- select_posts postsFailure (sort st) ;;
  match r with
  | Data data =>
      st' <- fetchCommentCounts countsFailure (map Post.id data)
               (setPosts data (setLoading true st)) ;;
      ret (setLoading false st')
  | Error _ =>
      console_error "Error fetching posts:" ;;
      ret (setLoading false st)
  end.

(** What a card of the feed shows: [commentCounts[post.id] || 0]. *)
Definition shown_count (st : State) (post : Post.t) : Z :=
  Obj.or_zero (Obj.get (commentCounts st) (Post.id post)).

End Feed.

Module Thread.

(** [from("comments").select("*").eq("post_id", id)
      .order("created_at", { ascending: true })] *)
Definition select_comments (failure : option string) (i : string)
  : M (result (list Comment.t)) :=
  e <- send Select "comments" (Some ("post_id", i)) failure (fun s => s) ;;
  match e with
  | Some e => ret (Error e)
  | None =>
      rows <- read (fun s =>
                order_by (ascending Comment.created_at)
                  (filter (Table.of_post i) (comments s))) ;;
      ret (Data rows)
  end.

(** [fetchComments] of the post page. *)
Definition fetchComments (failure : option string) (st : PostPage.State)
  : M PostPage.State :=
  r <- select_comments failure (PostPage.id st) ;;
  match r with
  | Data data => ret (PostPage.setComments data st)
  | Error _ => console_error "Error fetching comments:" ;; ret st
  end.

End Thread.

(** The other post page of the sources, which no route uses: its
    [handleDelete] deletes the post only. *)
Module PostPageVariant.

Definition handleDelete (failure : option string) (st : PostPage.State)
  : M PostPage.State :=
  match PostPage.post st with
  | None => alert "Invalid secret key" ;; ret st
  | Some post =>
      if JS.strict_neq (PostPage.secretKey st) (Post.secret_key post) then
        alert "Invalid secret key" ;; ret st
      else
        e <- Table.delete_post failure (Post.id post) ;;
        match e with
        | Some _ => console_error "Error deleting post:" ;; ret st
        | None => navigate "/" ;; ret st
        end
  end.

End PostPageVariant.

(* ================================================================== *)
(** ** Sample data *)
(* ================================================================== *)

Definition transfer_news : Post.t :=
  Post.mk "p1" "Transfer news" (Some "Who is next?") (Some "") 3 1000 "u1" (Some "abc")
    (Some ["News"]) None.

Definition open_thread : Post.t :=
  Post.mk "p2" "Open thread" (Some "") (Some "") 0 2000 "u2" (Some "") (Some []) None.

Definition legacy_post : Post.t :=
  Post.mk "p3" "Imported" (Some "") (Some "") 7 500 "u3" None None None.

Definition great_signing : Comment.t :=
  Comment.mk "c1" "p1" "Great signing!" 1500 "u4".

Definition sample_store : Store :=
  mkStore [transfer_news; open_thread; legacy_post] [great_signing].

Definition imported_post : Post.t :=
  Post.mk "p4" "Imported too" None None 2 700 "u5" (Some "k") None None.

Definition imported_store : Store := mkStore [imported_post] [].

Definition viral_post : Post.t :=
  Post.mk "p5" "Viral" (Some "") (Some "") 9007199254740992 800 "u6" (Some "v")
    (Some []) None.

Definition viral_store : Store := mkStore [viral_post] [].


Definition empty_store : Store := mkStore [] [].

Definition working : Remote := mkRemote None "p9" 9000.
Definition broken : Remote := mkRemote (Some "503") "p9" 9000.

(* ================================================================== *)
(** ** The built-ins and the views on small inputs *)
(* ================================================================== *)

Example trim_examples :
  JS.trim "  a b  " = "a b" /\ JS.trim "   " = "" /\ JS.trim "x" = "x".
Proof. split; [|split]; reflexivity. Qed.

Example split_examples :
  JS.split_space "a  b" = ["a"; ""; "b"] /\ JS.split_space "" = [""].
Proof. split; reflexivity. Qed.

Example includes_examples :
  JS.toLowerCase "Hello World" = "hello world"
  /\ JS.includes "transfer news" "news" = true
  /\ JS.includes "abc" "" = true
  /\ JS.includes "" "a" = false.
Proof. split; [|split; [|split]]; reflexivity. Qed.

Example truncateText_examples :
  HomeFeed.truncateText "a b c" 2 = "a b..."
  /\ HomeFeed.truncateText "a b c" 3 = "a b c"
  /\ HomeFeed.truncateText "a b c" 0 = "..."
  /\ HomeFeed.truncateText "a  b" 2 = "a ...".
Proof. split; [|split; [|split]]; reflexivity. Qed.

Example add_one_examples :
  JS.add_one 41 = 42
  /\ JS.add_one 9007199254740991 = 9007199254740992
  /\ JS.add_one 9007199254740992 = 9007199254740992
  /\ JS.add_one 9007199254740994 = 9007199254740996
  /\ JS.add_one (- 9007199254740992) = - 9007199254740991
  /\ JS.add_one (- 9007199254740994) = - 9007199254740992.
Proof. repeat apply conj; reflexivity. Qed.

Example filteredPosts_examples :
  HomeFeed.filteredPosts (posts sample_store) "NEWS" "" = [transfer_news]
  /\ HomeFeed.filteredPosts (posts sample_store) "" "News" = [transfer_news]
  /\ HomeFeed.filteredPosts (posts sample_store) "t" "" = posts sample_store.
Proof. split; [|split]; reflexivity. Qed.

(** The scenario of the specification: create a post, comment on it,
    upvote it twice, fail to delete it with a wrong key, delete it with
    the right one. *)
Example end_to_end :
  let s1 := store_after
              (createPost "u1" (mkRemote None "p1" 100) "Transfer news" "" ""
                 "abc" [])
              empty_store in
  let s2 := store_after
              (addComment "u2" (mkRemote None "c1" 200) "Great signing!"
                 (PostPage.init "p1"))
              s1 in
  let s3 := store_after (upvote None [None; None] "p1") s2 in
  option_map Post.upvotes (getPost "p1" s3) = Some 2
  /\ map Comment.content (filter (Table.of_post "p1") (comments s3))
     = ["Great signing!"]
  /\ run (deletePost None None None "p1" "wrong") s3
     = (tt, mkWorld s3 [Request Select "posts" (Some ("id", "p1"));
                        UnauthorizedError])
  /\ store_after (deletePost None None None "p1" "abc") s3 = empty_store.
Proof. cbv zeta. repeat apply conj; reflexivity. Qed.

(* ================================================================== *)
(** ** Lists and strings *)
(* ================================================================== *)

Lemma filter_idempotent {A} (f : A -> bool) (l : list A) :
  filter f (filter f l) = filter f l.
Proof.
  induction l as [|x l IH]; simpl; [reflexivity|].
  destruct (f x) eqn:E; simpl; [rewrite E, IH|]; auto.
Qed.

Lemma filter_all {A} (f : A -> bool) (l : list A) :
  (forall x, f x = true) -> filter f l = l.
Proof.
  intros H; induction l as [|x l IH]; simpl; [reflexivity|].
  now rewrite H, IH.
Qed.

Lemma includes_empty (s : string) : JS.includes s "" = true.
Proof. destruct s; reflexivity. Qed.

Lemma matches_nothing_asked (post : Post.t) : HomeFeed.matches "" "" post = true.
Proof.
  unfold HomeFeed.matches; simpl JS.toLowerCase.
  now rewrite includes_empty.
Qed.

Lemma split_space_length (s : string) : (1 <= List.length (JS.split_space s))%nat.
Proof.
  induction s as [|c r IH]; simpl; [lia|].
  destruct (Ascii.eqb c " "); simpl; [lia|].
  destruct (JS.split_space r); simpl in *; lia.
Qed.

Lemma slice0_firstn {A} (arr : list A) (e : Z) :
  0 <= e <= Z.of_nat (List.length arr) ->
  JS.slice0 arr e = firstn (Z.to_nat e) arr.
Proof.
  intros H; unfold JS.slice0.
  destruct (Z.ltb_spec e 0); [lia|].
  now rewrite Z.min_l by lia.
Qed.

Lemma slice0_negative {A} (arr : list A) (e : Z) :
  e < 0 ->
  JS.slice0 arr e = firstn (List.length arr - Z.to_nat (- e)) arr.
Proof.
  intros H; unfold JS.slice0.
  destruct (Z.ltb_spec e 0); [|lia].
  f_equal; lia.
Qed.

(* ================================================================== *)
(** ** HomeFeed: truncation, relative time, filter *)
(* ================================================================== *)




(** What the code does below zero: [slice(0, maxWords)] drops the last
    [-maxWords] words. *)
Lemma truncateText_negative (text : string) (maxWords : Z) :
  maxWords < 0 ->
  HomeFeed.truncateText text maxWords =
  JS.join_space
    (firstn (List.length (JS.split_space text) - Z.to_nat (- maxWords))
       (JS.split_space text)) ++ "...".
Proof.
  intros Hm; unfold HomeFeed.truncateText; cbv zeta.
  pose proof (split_space_length text).
  destruct (Z.leb_spec (Z.of_nat (List.length (JS.split_space text))) maxWords);
    [lia|].
  now rewrite slice0_negative.
Qed.

Lemma hours_lt (elapsed h : Z) :
  elapsed < h * 3600000 -> elapsed / (1000 * 60 * 60) < h.
Proof.
  intros H; change (1000 * 60 * 60) with 3600000.
  apply Z.div_lt_upper_bound; lia.
Qed.

Lemma hours_ge (elapsed h : Z) :
  h * 3600000 <= elapsed -> h <= elapsed / (1000 * 60 * 60).
Proof.
  intros H; change (1000 * 60 * 60) with 3600000.
  apply Z.div_le_lower_bound; lia.
Qed.

(** C6: for [now >= timestamp], [formatTimeAgo] gives "Just now" under
    one hour, the whole hours elapsed with "h ago" under 24 hours, and
    the whole days elapsed with "d ago" from there on; 59 minutes give
    "Just now", 60 minutes "1h ago", 23h59m "23h ago", 24 hours "1d ago". *)
Theorem formatTimeAgo_labels (timestamp now : Z) :
  timestamp <= now ->
  let elapsed := now - timestamp in
  (elapsed < 3600000 ->
   HomeFeed.formatTimeAgo now timestamp = "Just now")
  /\ (3600000 <= elapsed < 24 * 3600000 ->
      HomeFeed.formatTimeAgo now timestamp
      = JS.toString (elapsed / 3600000) ++ "h ago")
  /\ (24 * 3600000 <= elapsed ->
      HomeFeed.formatTimeAgo now timestamp
      = JS.toString (elapsed / (24 * 3600000)) ++ "d ago")
  /\ HomeFeed.formatTimeAgo (timestamp + 59 * 60000) timestamp = "Just now"
  /\ HomeFeed.formatTimeAgo (timestamp + 60 * 60000) timestamp = "1h ago"
  /\ HomeFeed.formatTimeAgo (timestamp + (23 * 60 + 59) * 60000) timestamp
     = "23h ago"
  /\ HomeFeed.formatTimeAgo (timestamp + 24 * 3600000) timestamp = "1d ago".
Proof.
  intros Hle elapsed.
  assert (Hfix : forall d, timestamp + d - timestamp = d) by (intros; lia).
  unfold HomeFeed.formatTimeAgo; cbv zeta; fold elapsed.
  rewrite !Hfix.
  split; [|split; [|split; [|repeat apply conj; vm_compute; reflexivity]]].
  - intros H. pose proof (hours_lt elapsed 1 ltac:(lia)).
    destruct (Z.ltb_spec (elapsed / (1000 * 60 * 60)) 1); [reflexivity|lia].
  - intros [H1 H2].
    pose proof (hours_ge elapsed 1 ltac:(lia)).
    pose proof (hours_lt elapsed 24 ltac:(lia)).
    destruct (Z.ltb_spec (elapsed / (1000 * 60 * 60)) 1); [lia|].
    destruct (Z.ltb_spec (elapsed / (1000 * 60 * 60)) 24); [reflexivity|lia].
  - intros H.
    pose proof (hours_ge elapsed 24 ltac:(lia)).
    destruct (Z.ltb_spec (elapsed / (1000 * 60 * 60)) 1); [lia|].
    destruct (Z.ltb_spec (elapsed / (1000 * 60 * 60)) 24); [lia|].
    change (1000 * 60 * 60) with 3600000.
    now rewrite Z.div_div by lia.
Qed.

Lemma formatTimeAgo_labels_witness :
  1000 <= 1000 + 50 * 3600000
  /\ HomeFeed.formatTimeAgo (1000 + 50 * 3600000) 1000 = "2d ago"
  /\ HomeFeed.formatTimeAgo (1000 + 5 * 3600000 + 1) 1000 = "5h ago"
  /\ HomeFeed.formatTimeAgo (1000 + 3599999) 1000 = "Just now".
Proof.
  split; [lia|split; [|split]].
  - destruct (formatTimeAgo_labels 1000 (1000 + 50 * 3600000)) as (_ & _ & H & _);
      [lia|].
    rewrite H; [reflexivity|lia].
  - destruct (formatTimeAgo_labels 1000 (1000 + 5 * 3600000 + 1)) as (_ & H & _);
      [lia|].
    rewrite H; [reflexivity|lia].
  - destruct (formatTimeAgo_labels 1000 (1000 + 3599999)) as (H & _); [lia|].
    rewrite H; [reflexivity|lia].
Defined.

(** C9: filtering the feed twice with the same search term and category
    gives what filtering once gives, and the empty term with the empty
    category returns the posts as they are, in their order. *)
Theorem filteredPosts_idempotent_and_neutral
  (posts : list Post.t) (searchTerm filterFlag : string) :
  HomeFeed.filteredPosts (HomeFeed.filteredPosts posts searchTerm filterFlag)
    searchTerm filterFlag
  = HomeFeed.filteredPosts posts searchTerm filterFlag
  /\ HomeFeed.filteredPosts posts "" "" = posts.
Proof.
  unfold HomeFeed.filteredPosts; split.
  - apply filter_idempotent.
  - apply filter_all, matches_nothing_asked.
Qed.

(* ================================================================== *)
(** ** The store: lookups, and what the page loads *)
(* ================================================================== *)

Lemma truthy_false (s : string) : JS.truthy s = false <-> s = "".
Proof. destruct s; simpl; split; intros H; congruence. Qed.

Lemma truthy_true (s : string) : JS.truthy s = true <-> s <> "".
Proof. destruct s; simpl; split; intros H; congruence. Qed.

Lemma strict_neq_false (a : string) (b : option string) :
  JS.strict_neq a b = false <-> b = Some a.
Proof.
  destruct b as [b|]; simpl.
  - rewrite negb_false_iff, String.eqb_eq. split; congruence.
  - split; discriminate.
Qed.

Lemma strict_neq_true (a : string) (b : option string) :
  JS.strict_neq a b = true <-> b <> Some a.
Proof.
  rewrite <- strict_neq_false.
  destruct (JS.strict_neq a b); split; congruence.
Qed.

Lemma getPost_rows (i : string) (s : Store) (p : Post.t) :
  getPost i s = Some p -> filter (Table.has_id i) (posts s) = [p].
Proof.
  unfold getPost.
  destruct (filter (Table.has_id i) (posts s)) as [|r [|r' l]];
    congruence.
Qed.

Lemma getPost_id (i : string) (s : Store) (p : Post.t) :
  getPost i s = Some p -> Post.id p = i.
Proof.
  intros H. apply getPost_rows in H.
  assert (Hin : In p (filter (Table.has_id i) (posts s)))
    by (rewrite H; now left).
  apply filter_In in Hin. now apply String.eqb_eq.
Qed.

Lemma PostPage_fetchPost_found (st : PostPage.State) (w : World) (p : Post.t) :
  getPost (PostPage.id st) (db w) = Some p ->
  PostPage.fetchPost None st w
  = (PostPage.setPost p st,
     mkWorld (db w)
       (trace w ++ [Request Select "posts" (Some ("id", PostPage.id st))])).
Proof.
  intros H. apply getPost_rows in H.
  unfold PostPage.fetchPost, Table.select_post, send, bind, emit, modify, read, ret.
  simpl. now rewrite H.
Qed.

Lemma EditPost_fetchPost_found (st : EditPost.State) (w : World) (p : Post.t) :
  getPost (EditPost.id st) (db w) = Some p ->
  EditPost.fetchPost None st w
  = (EditPost.mkState (EditPost.id st) (Some p)
       (EditPost.mkForm (Post.title p) (EditPost.or_blank (Post.content p))
          (EditPost.or_blank (Post.image_url p))
          (EditPost.or_empty (Post.flags p)))
       (EditPost.secretKey st),
     mkWorld (db w)
       (trace w ++ [Request Select "posts" (Some ("id", EditPost.id st))])).
Proof.
  intros H. apply getPost_rows in H.
  unfold EditPost.fetchPost, Table.select_post, send, bind, emit, modify, read, ret.
  simpl. now rewrite H.
Qed.

(* ================================================================== *)
(** ** Authorization by secret key *)
(* ================================================================== *)

Lemma handleSubmit_wrong_key (failure : option string) (st : EditPost.State)
  (p : Post.t) (w : World) :
  EditPost.post st = Some p ->
  Post.secret_key p <> Some (EditPost.secretKey st) ->
  EditPost.handleSubmit failure st w
  = (tt, mkWorld (db w) (trace w ++ [UnauthorizedError])).
Proof.
  intros Hp Hk. apply strict_neq_true in Hk.
  unfold EditPost.handleSubmit. rewrite Hp, Hk. reflexivity.
Qed.

Lemma handleDelete_wrong_key (cf pf : option string) (st : PostPage.State)
  (p : Post.t) (w : World) :
  PostPage.post st = Some p ->
  Post.secret_key p <> Some (PostPage.secretKey st) ->
  PostPage.handleDelete cf pf st w
  = (st, mkWorld (db w) (trace w ++ [UnauthorizedError])).
Proof.
  intros Hp Hk. apply strict_neq_true in Hk.
  unfold PostPage.handleDelete. rewrite Hp, Hk. reflexivity.
Qed.

Lemma updatePost_right_key (s : Store) (i key : string) (p : Post.t)
  (fields : EditPost.FormData) (updateFailure : option string) :
  getPost i s = Some p ->
  Post.secret_key p = Some key ->
  run (updatePost None updateFailure i key fields) s
  = if negb (JS.truthy (JS.trim (EditPost.title fields))) then
      (tt, mkWorld s [Request Select "posts" (Some ("id", i)); ValidationError])
    else
      match updateFailure with
      | None =>
          (tt, mkWorld (edited i fields s)
                 [Request Select "posts" (Some ("id", i));
                  Request Update "posts" (Some ("id", i));
                  Navigate ("/post/" ++ i)])
      | Some _ =>
          (tt, mkWorld s
                 [Request Select "posts" (Some ("id", i));
                  Request Update "posts" (Some ("id", i));
                  ConsoleError "Error updating post:";
                  Alert "Error updating post. Please try again."])
      end.
Proof.
  intros Hp Hk. pose proof (getPost_id _ _ _ Hp) as Hid.
  apply strict_neq_false in Hk.
  unfold run, updatePost, bind.
  rewrite (EditPost_fetchPost_found _ _ p) by exact Hp.
  unfold EditPost.handleSubmit; simpl.
  rewrite Hk, Hid.
  destruct (negb (JS.truthy (JS.trim (EditPost.title fields)))); [reflexivity|].
  destruct updateFailure; reflexivity.
Qed.

Lemma deletePost_right_key (s : Store) (i key : string) (p : Post.t)
  (commentsFailure postFailure : option string) :
  getPost i s = Some p ->
  Post.secret_key p = Some key ->
  run (deletePost None commentsFailure postFailure i key) s
  = (tt,
     mkWorld
       (let s1 := match commentsFailure with
                  | None => without_comments i s
                  | Some _ => s
                  end in
        match postFailure with
        | None => without_post i s1
        | Some _ => s1
        end)
       ([Request Select "posts" (Some ("id", i));
         Request Delete "comments" (Some ("post_id", i))]
        ++ match commentsFailure with
           | None => []
           | Some _ => [ConsoleError "Error deleting comments:"]
           end
        ++ Request Delete "posts" (Some ("id", i))
        :: match postFailure with
           | None =>
               [Alert "Post and all associated comments deleted successfully!";
                Navigate "/"]
           | Some _ =>
               [ConsoleError "Error deleting post:";
                Alert "Failed to delete post. Please try again."]
           end)).
Proof.
  intros Hp Hk. pose proof (getPost_id _ _ _ Hp) as Hid.
  apply strict_neq_false in Hk.
  unfold run, deletePost, bind.
  rewrite (PostPage_fetchPost_found _ _ p) by exact Hp.
  unfold PostPage.handleDelete; simpl.
  rewrite Hk, Hid.
  destruct commentsFailure, postFailure; reflexivity.
Qed.

Lemma deletePost_wrong_key (s : Store) (i key : string) (p : Post.t)
  (commentsFailure postFailure : option string) :
  getPost i s = Some p ->
  Post.secret_key p <> Some key ->
  run (deletePost None commentsFailure postFailure i key) s
  = (tt, mkWorld s [Request Select "posts" (Some ("id", i)); UnauthorizedError]).
Proof.
  intros Hp Hk.
  unfold run, deletePost, bind.
  rewrite (PostPage_fetchPost_found _ _ p) by exact Hp.
  now rewrite (handleDelete_wrong_key _ _ _ p).
Qed.

Lemma updatePost_wrong_key (s : Store) (i key : string) (p : Post.t)
  (fields : EditPost.FormData) (updateFailure : option string) :
  getPost i s = Some p ->
  Post.secret_key p <> Some key ->
  run (updatePost None updateFailure i key fields) s
  = (tt, mkWorld s [Request Select "posts" (Some ("id", i)); UnauthorizedError]).
Proof.
  intros Hp Hk.
  unfold run, updatePost, bind.
  rewrite (EditPost_fetchPost_found _ _ p) by exact Hp.
  now rewrite (handleSubmit_wrong_key _ _ p).
Qed.

Ltac not_among :=
  simpl; unfold UnauthorizedError, ValidationError;
  intuition (try discriminate; try congruence).

(** Edit is refused exactly when the supplied key is not the stored one. *)
Lemma updatePost_refused_iff (s : Store) (i key : string) (p : Post.t)
  (fields : EditPost.FormData) (updateFailure : option string) :
  getPost i s = Some p ->
  In UnauthorizedError (effects (updatePost None updateFailure i key fields) s)
  <-> Post.secret_key p <> Some key.
Proof.
  intros Hp. unfold effects.
  destruct (JS.strict_neq key (Post.secret_key p)) eqn:Hk;
    [apply strict_neq_true in Hk|apply strict_neq_false in Hk]; cycle 1.
  - rewrite (updatePost_right_key _ _ _ p) by assumption.
    split; [|congruence]. intros Hin; exfalso; revert Hin.
    destruct (negb (JS.truthy (JS.trim (EditPost.title fields))));
      [|destruct updateFailure]; not_among.
  - rewrite (updatePost_wrong_key _ _ _ p) by assumption.
    split; [auto|]. intros _; simpl; auto.
Qed.

(** Delete is refused exactly when the supplied key is not the stored one. *)
Lemma deletePost_refused_iff (s : Store) (i key : string) (p : Post.t)
  (commentsFailure postFailure : option string) :
  getPost i s = Some p ->
  In UnauthorizedError
    (effects (deletePost None commentsFailure postFailure i key) s)
  <-> Post.secret_key p <> Some key.
Proof.
  intros Hp. unfold effects.
  destruct (JS.strict_neq key (Post.secret_key p)) eqn:Hk;
    [apply strict_neq_true in Hk|apply strict_neq_false in Hk]; cycle 1.
  - rewrite (deletePost_right_key _ _ _ p) by assumption.
    split; [|congruence]. intros Hin; exfalso; revert Hin.
    destruct commentsFailure, postFailure; not_among.
  - rewrite (deletePost_wrong_key _ _ _ p) by assumption.
    split; [auto|]. intros _; simpl; auto.
Qed.

Lemma updatePost_not_loaded (s : Store) (i key e : string)
  (fields : EditPost.FormData) (updateFailure : option string) :
  run (updatePost (Some e) updateFailure i key fields) s
  = (tt, mkWorld s [Request Select "posts" (Some ("id", i));
                    ConsoleError "Error fetching post:";
                    UnauthorizedError]).
Proof. reflexivity. Qed.

(** C2: when the supplied key differs from the stored key of the post,
    [updatePost] writes nothing, whatever the fields are and whatever the
    store answers: the store is left as it was, the only request is the
    one that loads the post, and the operation signals
    [UnauthorizedError]. *)
Theorem updatePost_wrong_key_no_write (s : Store) (i key : string) (p : Post.t)
  (fields : EditPost.FormData) (fetchFailure updateFailure : option string) :
  getPost i s = Some p ->
  Post.secret_key p <> Some key ->
  run (updatePost fetchFailure updateFailure i key fields) s
  = (tt, mkWorld s
           (Request Select "posts" (Some ("id", i))
            :: match fetchFailure with
               | None => []
               | Some _ => [ConsoleError "Error fetching post:"]
               end
            ++ [UnauthorizedError])).
Proof.
  intros Hp Hk. destruct fetchFailure as [e|].
  - apply updatePost_not_loaded.
  - now apply (updatePost_wrong_key _ _ _ p).
Qed.

Lemma updatePost_wrong_key_no_write_witness :
  getPost "p1" sample_store = Some transfer_news
  /\ Post.secret_key transfer_news <> Some "ABC"
  /\ store_after
       (updatePost None None "p1" "ABC" (EditPost.mkForm "Hijacked" "" "" []))
       sample_store
     = sample_store.
Proof.
  assert (H1 : getPost "p1" sample_store = Some transfer_news) by reflexivity.
  assert (H2 : Post.secret_key transfer_news <> Some "ABC") by discriminate.
  split; [exact H1|split; [exact H2|]].
  unfold store_after.
  now rewrite (updatePost_wrong_key_no_write sample_store "p1" "ABC"
                 transfer_news (EditPost.mkForm "Hijacked" "" "" []) None None
                 H1 H2).
Defined.

(** C1, as the code has it: a post whose stored secret key is the empty
    string is opened by the empty key only, and every other key is refused
    as invalid, on edit and on delete; a post without a secret key (null)
    is refused for every key. *)
Theorem blank_secret_key_authorization (s : Store) (i key : string) (p : Post.t)
  (fields : EditPost.FormData) (updateFailure commentsFailure postFailure : option string) :
  getPost i s = Some p ->
  (Post.secret_key p = Some "" ->
   (key = "" ->
    ~ In UnauthorizedError (effects (updatePost None updateFailure i key fields) s)
    /\ ~ In UnauthorizedError
           (effects (deletePost None commentsFailure postFailure i key) s))
   /\ (key <> "" ->
       run (updatePost None updateFailure i key fields) s
       = (tt, mkWorld s [Request Select "posts" (Some ("id", i)); UnauthorizedError])
       /\ run (deletePost None commentsFailure postFailure i key) s
          = (tt, mkWorld s [Request Select "posts" (Some ("id", i)); UnauthorizedError])))
  /\ (Post.secret_key p = None ->
      run (updatePost None updateFailure i key fields) s
      = (tt, mkWorld s [Request Select "posts" (Some ("id", i)); UnauthorizedError])
      /\ run (deletePost None commentsFailure postFailure i key) s
         = (tt, mkWorld s [Request Select "posts" (Some ("id", i)); UnauthorizedError])).
Proof.
  intros Hp; split; [intros Hs; split; intros Hk|intros Hs].
  - subst key; split.
    + rewrite (updatePost_refused_iff _ _ _ p) by assumption. congruence.
    + rewrite (deletePost_refused_iff _ _ _ p) by assumption. congruence.
  - assert (Post.secret_key p <> Some key) by (rewrite Hs; congruence).
    split; [now apply (updatePost_wrong_key _ _ _ p)
           |now apply (deletePost_wrong_key _ _ _ p)].
  - assert (Post.secret_key p <> Some key) by (rewrite Hs; discriminate).
    split; [now apply (updatePost_wrong_key _ _ _ p)
           |now apply (deletePost_wrong_key _ _ _ p)].
Qed.

Lemma blank_secret_key_authorization_witness :
  getPost "p2" sample_store = Some open_thread
  /\ Post.secret_key open_thread = Some ""
  /\ "abc" <> ""
  /\ store_after (deletePost None None None "p2" "abc") sample_store = sample_store
  /\ ~ In UnauthorizedError
         (effects (deletePost None None None "p2" "") sample_store)
  /\ getPost "p3" sample_store = Some legacy_post
  /\ Post.secret_key legacy_post = None
  /\ store_after (deletePost None None None "p3" "") sample_store = sample_store.
Proof.
  assert (H1 : getPost "p2" sample_store = Some open_thread) by reflexivity.
  assert (H2 : Post.secret_key open_thread = Some "") by reflexivity.
  assert (H3 : "abc" <> "") by discriminate.
  assert (H4 : getPost "p3" sample_store = Some legacy_post) by reflexivity.
  assert (H5 : Post.secret_key legacy_post = None) by reflexivity.
  split; [exact H1|split; [exact H2|split; [exact H3|]]].
  split; [|split; [|split; [exact H4|split; [exact H5|]]]]; cycle 2.
  - destruct (blank_secret_key_authorization sample_store "p3" "" legacy_post
                (EditPost.mkForm "t" "" "" []) None None None H4)
      as [_ Hnull].
    destruct (Hnull H5) as [_ Hdel].
    unfold store_after. now rewrite Hdel.
  - destruct (blank_secret_key_authorization sample_store "p2" "abc" open_thread
                (EditPost.mkForm "t" "" "" []) None None None H1)
      as [Hblank _].
    destruct (Hblank H2) as [_ Hrefused].
    destruct (Hrefused H3) as [_ Hdel].
    unfold store_after. now rewrite Hdel.
  - destruct (blank_secret_key_authorization sample_store "p2" "" open_thread
                (EditPost.mkForm "t" "" "" []) None None None H1)
      as [Hblank _].
    destruct (Hblank H2) as [Hopen _].
    now destruct (Hopen eq_refl).
Defined.

(** C1 fails: the post "p2" has the empty secret key, and the key "abc"
    is refused on delete and on edit; the post "p3" has no secret key, and
    even the empty key is refused. *)
Lemma blank_secret_key_counterexample :
  Post.secret_key open_thread = Some ""
  /\ Post.secret_key legacy_post = None
  /\ run (deletePost None None None "p2" "abc") sample_store
     = (tt, mkWorld sample_store
              [Request Select "posts" (Some ("id", "p2")); Alert "Invalid secret key"])
  /\ run (updatePost None None "p2" "abc" (EditPost.mkForm "Edited" "" "" []))
       sample_store
     = (tt, mkWorld sample_store
              [Request Select "posts" (Some ("id", "p2")); Alert "Invalid secret key"])
  /\ run (deletePost None None None "p3" "") sample_store
     = (tt, mkWorld sample_store
              [Request Select "posts" (Some ("id", "p3")); Alert "Invalid secret key"]).
Proof. repeat apply conj; reflexivity. Qed.

(* ================================================================== *)
(** ** Deleting a post *)
(* ================================================================== *)

Lemma getPost_without_post (i : string) (s : Store) :
  getPost i (without_post i s) = None.
Proof.
  unfold getPost, without_post; simpl.
  assert (H : filter (Table.has_id i)
                (filter (fun r => negb (Table.has_id i r)) (posts s)) = []).
  { induction (posts s) as [|r l IH]; simpl; [reflexivity|].
    destruct (Table.has_id i r) eqn:E; simpl; [exact IH|].
    now rewrite E. }
  now rewrite H.
Qed.

Lemma no_comment_left (i : string) (s : Store) :
  filter (Table.of_post i) (comments (without_comments i s)) = [].
Proof.
  unfold without_comments; simpl.
  induction (comments s) as [|c l IH]; simpl; [reflexivity|].
  destruct (Table.of_post i c) eqn:E; simpl; [exact IH|].
  now rewrite E.
Qed.

(** C3: with the matching key, [deletePost] first asks the store to
    delete the comments of the post, then to delete the post.  When the
    comments request fails, the error is logged, the comments stay, and
    the post is deleted all the same; whether or not the comments request
    failed, the post being deleted, the user is told that the deletion
    succeeded and is sent back to the feed. *)
Theorem deletePost_cascade (s : Store) (i key : string) (p : Post.t)
  (commentsFailure : option string) :
  getPost i s = Some p ->
  Post.secret_key p = Some key ->
  let w := snd (run (deletePost None commentsFailure None i key) s) in
  trace w
  = ([Request Select "posts" (Some ("id", i));
      Request Delete "comments" (Some ("post_id", i))]
     ++ match commentsFailure with
        | None => []
        | Some _ => [ConsoleError "Error deleting comments:"]
        end
     ++ [Request Delete "posts" (Some ("id", i));
         Alert "Post and all associated comments deleted successfully!";
         Navigate "/"])%list
  /\ posts (db w) = filter (fun r => negb (Table.has_id i r)) (posts s)
  /\ getPost i (db w) = None
  /\ comments (db w)
     = match commentsFailure with
       | None => filter (fun c => negb (Table.of_post i c)) (comments s)
       | Some _ => comments s
       end
  /\ (commentsFailure = None -> filter (Table.of_post i) (comments (db w)) = []).
Proof.
  intros Hp Hk w; subst w.
  rewrite (deletePost_right_key _ _ _ p) by assumption.
  destruct commentsFailure; simpl; repeat apply conj; try reflexivity.
  - apply getPost_without_post.
  - discriminate.
  - apply (getPost_without_post i (without_comments i s)).
  - intros _. apply no_comment_left.
Qed.

Lemma deletePost_cascade_witness :
  getPost "p1" sample_store = Some transfer_news
  /\ Post.secret_key transfer_news = Some "abc"
  /\ db (snd (run (deletePost None (Some "503") None "p1" "abc") sample_store))
     = mkStore [open_thread; legacy_post] [great_signing]
  /\ db (snd (run (deletePost None None None "p1" "abc") sample_store))
     = mkStore [open_thread; legacy_post] [].
Proof.
  assert (H1 : getPost "p1" sample_store = Some transfer_news) by reflexivity.
  assert (H2 : Post.secret_key transfer_news = Some "abc") by reflexivity.
  split; [exact H1|split; [exact H2|]].
  pose proof (deletePost_cascade sample_store "p1" "abc" transfer_news
                (Some "503") H1 H2) as (_ & Hposts & _ & Hcomments & _).
  pose proof (deletePost_cascade sample_store "p1" "abc" transfer_news
                None H1 H2) as (_ & Hposts' & _ & Hcomments' & _).
  split.
  - destruct (db (snd (run (deletePost None (Some "503") None "p1" "abc")
                         sample_store))) as [ps cs].
    simpl in Hposts, Hcomments. now rewrite Hposts, Hcomments.
  - destruct (db (snd (run (deletePost None None None "p1" "abc")
                         sample_store))) as [ps cs].
    simpl in Hposts', Hcomments'. now rewrite Hposts', Hcomments'.
Defined.

(** When the store refuses to delete the post, the failure is surfaced
    and the post stays; comments already deleted stay deleted. *)
Lemma deletePost_post_failure (s : Store) (i key e : string) (p : Post.t) :
  getPost i s = Some p ->
  Post.secret_key p = Some key ->
  run (deletePost None None (Some e) i key) s
  = (tt, mkWorld (without_comments i s)
           [Request Select "posts" (Some ("id", i));
            Request Delete "comments" (Some ("post_id", i));
            Request Delete "posts" (Some ("id", i));
            ConsoleError "Error deleting post:";
            Alert "Failed to delete post. Please try again."]).
Proof.
  intros Hp Hk. now rewrite (deletePost_right_key _ _ _ p).
Qed.

(* ================================================================== *)
(** ** Editing a post *)
(* ================================================================== *)

Lemma filter_has_id_map (i : string) (f : Post.t -> Post.t) (l : list Post.t) :
  (forall r, Post.id (f r) = Post.id r) ->
  filter (Table.has_id i) (map (fun r => if Table.has_id i r then f r else r) l)
  = map f (filter (Table.has_id i) l).
Proof.
  intros Hf. induction l as [|r l IH]; simpl; [reflexivity|].
  destruct (Table.has_id i r) eqn:E.
  - assert (E' : Table.has_id i (f r) = true)
      by (unfold Table.has_id in *; now rewrite Hf).
    rewrite E'. simpl. now rewrite IH.
  - rewrite E. exact IH.
Qed.

Lemma filter_other_ids_map (i : string) (f : Post.t -> Post.t) (l : list Post.t) :
  (forall r, Post.id (f r) = Post.id r) ->
  filter (fun r => negb (Table.has_id i r))
    (map (fun r => if Table.has_id i r then f r else r) l)
  = filter (fun r => negb (Table.has_id i r)) l.
Proof.
  intros Hf. induction l as [|r l IH]; simpl; [reflexivity|].
  destruct (Table.has_id i r) eqn:E.
  - assert (E' : Table.has_id i (f r) = true)
      by (unfold Table.has_id in *; now rewrite Hf).
    rewrite E'. simpl. exact IH.
  - rewrite E. simpl. now rewrite IH.
Qed.

(** C8: when [updatePost] succeeds (matching key, title not blank, update
    accepted by the store), the stored post carries the title, content,
    image URL and flags of the form, and its id, created_at, user_id,
    secret_key and upvotes (and repost_id) are the ones it had; the other
    posts and all comments are untouched. *)
Theorem updatePost_overwrites_only_fields (s : Store) (i key : string)
  (p : Post.t) (fields : EditPost.FormData) :
  getPost i s = Some p ->
  Post.secret_key p = Some key ->
  JS.trim (EditPost.title fields) <> "" ->
  let s' := store_after (updatePost None None i key fields) s in
  effects (updatePost None None i key fields) s
  = [Request Select "posts" (Some ("id", i));
     Request Update "posts" (Some ("id", i));
     Navigate ("/post/" ++ i)]
  /\ getPost i s'
     = Some (Post.mk (Post.id p) (EditPost.title fields)
               (Some (EditPost.content fields))
               (Some (EditPost.image_url fields)) (Post.upvotes p) (Post.created_at p)
               (Post.user_id p) (Post.secret_key p)
               (Some (EditPost.flags fields)) (Post.repost_id p))
  /\ filter (fun r => negb (Table.has_id i r)) (posts s')
     = filter (fun r => negb (Table.has_id i r)) (posts s)
  /\ comments s' = comments s.
Proof.
  intros Hp Hk Ht s'; subst s'. unfold store_after, effects.
  rewrite (updatePost_right_key _ _ _ p) by assumption.
  apply truthy_true in Ht. rewrite Ht. simpl.
  repeat apply conj; try reflexivity.
  - unfold getPost; simpl.
    rewrite filter_has_id_map by reflexivity.
    now rewrite (getPost_rows _ _ _ Hp).
  - now apply filter_other_ids_map.
Qed.

Lemma updatePost_overwrites_only_fields_witness :
  getPost "p1" sample_store = Some transfer_news
  /\ Post.secret_key transfer_news = Some "abc"
  /\ JS.trim " Deadline day " <> ""
  /\ getPost "p1"
       (store_after
          (updatePost None None "p1" "abc"
             (EditPost.mkForm " Deadline day " "Rumours" "" ["Discussion"]))
          sample_store)
     = Some (Post.mk "p1" " Deadline day " (Some "Rumours") (Some "") 3 1000 "u1" (Some "abc")
               (Some ["Discussion"]) None).
Proof.
  assert (H1 : getPost "p1" sample_store = Some transfer_news) by reflexivity.
  assert (H2 : Post.secret_key transfer_news = Some "abc") by reflexivity.
  assert (H3 : JS.trim " Deadline day " <> "") by discriminate.
  split; [exact H1|split; [exact H2|split; [exact H3|]]].
  exact (proj1 (proj2 (updatePost_overwrites_only_fields sample_store "p1" "abc"
                         transfer_news
                         (EditPost.mkForm " Deadline day " "Rumours" "" ["Discussion"])
                         H1 H2 H3))).
Defined.

(* ================================================================== *)
(** ** Upvoting *)
(* ================================================================== *)

Lemma set_upvotes_same (q : Post.t) : set_upvotes (Post.upvotes q) q = q.
Proof. now destruct q. Qed.

Lemma getPost_upvoted (i : string) (n : Z) (s : Store) (q : Post.t) :
  getPost i s = Some q -> getPost i (upvoted i n s) = Some (set_upvotes n q).
Proof.
  intros H. unfold getPost, upvoted; simpl.
  rewrite filter_has_id_map by reflexivity.
  now rewrite (getPost_rows _ _ _ H).
Qed.

Lemma add_one_exact (n : Z) :
  - 9007199254740992 <= n < 9007199254740992 -> JS.add_one n = n + 1.
Proof.
  intros [H1 H2]. unfold JS.add_one.
  now rewrite (proj2 (Z.leb_le _ _) H1), (proj2 (Z.ltb_lt _ _) H2).
Qed.

Lemma iter_add_one_exact (k : nat) (u : Z) :
  - 9007199254740992 <= u ->
  u + Z.of_nat k <= 9007199254740992 ->
  Nat.iter k JS.add_one u = u + Z.of_nat k.
Proof.
  intros Hlo. induction k as [|k IH]; intros Hhi; simpl Nat.iter.
  - lia.
  - rewrite IH by lia. rewrite add_one_exact by lia. lia.
Qed.

Lemma handleUpvote_accepted (st : PostPage.State) (w : World) (q : Post.t) :
  PostPage.post st = Some q ->
  PostPage.handleUpvote None st w
  = (PostPage.setPost (set_upvotes (JS.add_one (Post.upvotes q)) q) st,
     mkWorld (upvoted (Post.id q) (JS.add_one (Post.upvotes q)) (db w))
       (trace w ++ [Request Update "posts" (Some ("id", Post.id q))])).
Proof. intros H. unfold PostPage.handleUpvote. now rewrite H. Qed.

Lemma handleUpvote_refused (e : string) (st : PostPage.State) (w : World)
  (q : Post.t) :
  PostPage.post st = Some q ->
  PostPage.handleUpvote (Some e) st w
  = (st,
     mkWorld (db w)
       (trace w ++ [Request Update "posts" (Some ("id", Post.id q))]
                ++ [ConsoleError "Error upvoting:"])).
Proof.
  intros H. unfold PostPage.handleUpvote. rewrite H.
  unfold bind, Table.update_post, send, emit, console_error, ret; simpl.
  now rewrite <- app_assoc.
Qed.

(** The page and the store agree on the post, and both have counted the
    accepted upvotes, each with the addition of doubles. *)
Lemma upvotes_count (failures : list (option string)) :
  forall (st : PostPage.State) (w : World) (q : Post.t),
  PostPage.post st = Some q ->
  getPost (Post.id q) (db w) = Some q ->
  let q' := set_upvotes
              (Nat.iter (accepted failures) JS.add_one (Post.upvotes q)) q in
  PostPage.post (fst (upvotes failures st w)) = Some q'
  /\ getPost (Post.id q) (db (snd (upvotes failures st w))) = Some q'.
Proof.
  induction failures as [|f fs IH]; intros st w q Hst Hdb; cbv zeta.
  - simpl. rewrite set_upvotes_same. auto.
  - simpl upvotes. unfold bind. destruct f as [e|].
    + rewrite (handleUpvote_refused e st w q Hst).
      change (accepted (Some e :: fs)) with (accepted fs).
      apply IH; assumption.
    + rewrite (handleUpvote_accepted st w q Hst).
      pose proof (IH (PostPage.setPost
                        (set_upvotes (JS.add_one (Post.upvotes q)) q) st)
                    (mkWorld
                       (upvoted (Post.id q) (JS.add_one (Post.upvotes q)) (db w))
                       (trace w ++ [Request Update "posts" (Some ("id", Post.id q))]))
                    (set_upvotes (JS.add_one (Post.upvotes q)) q)
                    eq_refl (getPost_upvoted _ _ _ _ Hdb)) as IH'.
      cbv zeta in IH'. simpl Post.id in IH'. simpl Post.upvotes in IH'.
      change (accepted (None :: fs)) with (S (accepted fs)).
      rewrite Nat.iter_succ_r.
      exact IH'.
Qed.

Lemma accepted_repeat (n : nat) : accepted (repeat None n) = n.
Proof.
  unfold accepted. induction n as [|n IH]; simpl; [reflexivity|].
  now rewrite IH.
Qed.

Lemma upvotes_not_loaded (failures : list (option string)) :
  forall (st : PostPage.State) (w : World),
  PostPage.post st = None -> upvotes failures st w = (st, w).
Proof.
  induction failures as [|f fs IH]; intros st w H; simpl; [reflexivity|].
  unfold bind, PostPage.handleUpvote. rewrite H. simpl. now apply IH.
Qed.

(** C7, as the code has it: [failures] being the store's answers to a
    sequence of upvotes of a post that has [U] upvotes, the post ends with
    [U] plus the number of upvotes the store accepted, and is otherwise
    unchanged, as long as that sum is at most 2^53 (beyond it the addition
    of doubles is not exact); so [N] upvotes that the store all accepts
    leave exactly [U + N], as long as [U + N] is at most 2^53.  (On a page
    that could not load the post no upvote is sent.) *)
Theorem upvote_counts_accepted (s : Store) (i : string) (p : Post.t)
  (failures : list (option string)) (N : nat) :
  getPost i s = Some p ->
  - 9007199254740992 <= Post.upvotes p ->
  (Post.upvotes p + Z.of_nat (accepted failures) <= 9007199254740992 ->
   getPost i (store_after (upvote None failures i) s)
   = Some (set_upvotes (Post.upvotes p + Z.of_nat (accepted failures)) p))
  /\ (Post.upvotes p + Z.of_nat N <= 9007199254740992 ->
      getPost i (store_after (upvote None (repeat None N) i) s)
      = Some (set_upvotes (Post.upvotes p + Z.of_nat N) p))
  /\ (forall e, store_after (upvote (Some e) failures i) s = s).
Proof.
  intros Hp Hlo.
  assert (Hgen : forall fs,
             Post.upvotes p + Z.of_nat (accepted fs) <= 9007199254740992 ->
             getPost i (store_after (upvote None fs i) s)
             = Some (set_upvotes (Post.upvotes p + Z.of_nat (accepted fs)) p)).
  { intros fs Hhi. unfold store_after, run, upvote, bind.
    rewrite (PostPage_fetchPost_found _ _ p) by exact Hp.
    pose proof (getPost_id _ _ _ Hp) as Hid.
    pose proof (upvotes_count fs
                  (PostPage.setPost p (PostPage.init i))
                  (mkWorld s [Request Select "posts" (Some ("id", i))]) p
                  eq_refl) as H.
    cbv zeta in H. rewrite Hid in H. simpl db at 1 in H.
    rewrite iter_add_one_exact in H by assumption.
    exact (proj2 (H Hp)). }
  split; [apply Hgen|split].
  - intros Hhi. rewrite Hgen; rewrite accepted_repeat; [reflexivity|exact Hhi].
  - intros e. unfold store_after, run, upvote, bind.
    unfold PostPage.fetchPost, Table.select_post, send, bind, emit,
      console_error, ret; simpl.
    now rewrite upvotes_not_loaded.
Qed.

Lemma upvote_counts_accepted_witness :
  getPost "p1" sample_store = Some transfer_news
  /\ - 9007199254740992 <= Post.upvotes transfer_news
  /\ Post.upvotes transfer_news + Z.of_nat (accepted [None; Some "503"; None])
     <= 9007199254740992
  /\ Post.upvotes transfer_news + Z.of_nat 4 <= 9007199254740992
  /\ getPost "p1"
       (store_after (upvote None [None; Some "503"; None] "p1") sample_store)
     = Some (set_upvotes 5 transfer_news)
  /\ getPost "p1" (store_after (upvote None (repeat None 4) "p1") sample_store)
     = Some (set_upvotes 7 transfer_news).
Proof.
  assert (H1 : getPost "p1" sample_store = Some transfer_news) by reflexivity.
  assert (H2 : - 9007199254740992 <= Post.upvotes transfer_news)
    by (simpl; lia).
  assert (H3 : Post.upvotes transfer_news
               + Z.of_nat (accepted [None; Some "503"; None])
               <= 9007199254740992) by (vm_compute; discriminate).
  assert (H4 : Post.upvotes transfer_news + Z.of_nat 4 <= 9007199254740992)
    by (simpl; lia).
  repeat (split; [assumption|]).
  destruct (upvote_counts_accepted sample_store "p1" transfer_news
              [None; Some "503"; None] 4 H1 H2) as (Hsome & Hall & _).
  split; [exact (Hsome H3)|exact (Hall H4)].
Defined.

(** C7 fails when the store refuses an upvote: one call on a post with 3
    upvotes, refused by the store, is logged and leaves 3 upvotes.  It
    also fails at 2^53 upvotes: an upvote that the store accepts writes
    2^53 again. *)
Lemma upvote_refused_counterexample :
  Post.upvotes transfer_news = 3
  /\ run (upvote None [Some "503"] "p1") sample_store
     = (PostPage.setPost transfer_news (PostPage.init "p1"),
        mkWorld sample_store
          [Request Select "posts" (Some ("id", "p1"));
           Request Update "posts" (Some ("id", "p1"));
           ConsoleError "Error upvoting:"])
  /\ getPost "p1" (store_after (upvote None [Some "503"] "p1") sample_store)
     = Some transfer_news
  /\ Post.upvotes transfer_news <> 3 + 1
  /\ Post.upvotes viral_post = 9007199254740992
  /\ run (upvote None [None] "p5") viral_store
     = (PostPage.setPost viral_post (PostPage.init "p5"),
        mkWorld viral_store
          [Request Select "posts" (Some ("id", "p5"));
           Request Update "posts" (Some ("id", "p5"))])
  /\ Post.upvotes viral_post <> 9007199254740992 + 1.
Proof.
  repeat apply conj; try reflexivity; discriminate.
Qed.

(* ================================================================== *)
(** ** Creating posts and comments *)
(* ================================================================== *)

Lemma createPost_run (userId : string) (srv : Remote)
  (title content image_url secret_key : string) (flags : list string) (s : Store) :
  run (createPost userId srv title content image_url secret_key flags) s
  = if negb (JS.truthy (JS.trim title)) then (tt, mkWorld s [ValidationError])
    else
      match failure srv with
      | None =>
          (tt, mkWorld
                 (mkStore
                    (posts s
                     ++ [Table.new_post srv title content image_url secret_key
                           userId None flags])
                    (comments s))
                 [Request Insert "posts" None; Navigate ("/post/" ++ new_id srv)])
      | Some _ =>
          (tt, mkWorld s
                 [Request Insert "posts" None;
                  ConsoleError "Error creating post:";
                  Alert "Error creating post. Please try again."])
      end.
Proof.
  unfold run, createPost, CreatePost.handleSubmit; simpl.
  destruct (negb (JS.truthy (JS.trim title))); [reflexivity|].
  unfold bind, Table.insert_post, send, emit, modify, ret; simpl.
  destruct (failure srv); reflexivity.
Qed.

Lemma addComment_run (userId : string) (srv : Remote) (content : string)
  (st : PostPage.State) (s : Store) :
  run (addComment userId srv content st) s
  = if negb (JS.truthy (JS.trim content)) then
      (PostPage.setNewComment content st, mkWorld s [])
    else
      match failure srv with
      | None =>
          let row := Table.new_comment srv (PostPage.id st) content userId in
          (PostPage.setNewComment ""
             (PostPage.setComments (PostPage.comments st ++ [row])
                (PostPage.setNewComment content st)),
           mkWorld (mkStore (posts s) (comments s ++ [row]))
             [Request Insert "comments" None])
      | Some _ =>
          (PostPage.setNewComment content st,
           mkWorld s
             [Request Insert "comments" None;
              ConsoleError "Error adding comment:"])
      end.
Proof.
  unfold run, addComment, PostPage.handleAddComment; simpl.
  destruct (negb (JS.truthy (JS.trim content))); [reflexivity|].
  unfold bind, Table.insert_comment, send, emit, modify, ret; simpl.
  destruct (failure srv); reflexivity.
Qed.

(** C4, as the code has it: a title that is blank after trimming is
    refused with [ValidationError] and nothing is written.  A title that
    is not blank passes; the store accepting the insert, one row is added
    with 0 upvotes and [created_at] set to the store's clock, and the user
    is sent to the new post; the store refusing it, the failure is
    surfaced and nothing is written. *)
Theorem createPost_validation (userId : string) (srv : Remote)
  (title content image_url secret_key : string) (flags : list string) (s : Store) :
  (JS.trim title = "" ->
   run (createPost userId srv title content image_url secret_key flags) s
   = (tt, mkWorld s [ValidationError]))
  /\ (JS.trim title <> "" -> failure srv = None ->
      exists row : Post.t,
        run (createPost userId srv title content image_url secret_key flags) s
        = (tt, mkWorld (mkStore (posts s ++ [row]) (comments s))
                 [Request Insert "posts" None; Navigate ("/post/" ++ Post.id row)])
        /\ Post.upvotes row = 0
        /\ Post.created_at row = clock srv
        /\ Post.id row = new_id srv)
  /\ (JS.trim title <> "" -> failure srv <> None ->
      run (createPost userId srv title content image_url secret_key flags) s
      = (tt, mkWorld s
               [Request Insert "posts" None;
                ConsoleError "Error creating post:";
                Alert "Error creating post. Please try again."])).
Proof.
  rewrite createPost_run.
  split; [|split].
  - intros H. apply truthy_false in H. now rewrite H.
  - intros H Hok. apply truthy_true in H. rewrite H, Hok. simpl.
    exists (Table.new_post srv title content image_url secret_key userId None flags).
    simpl. auto.
  - intros H Hko. apply truthy_true in H. rewrite H. simpl.
    destruct (failure srv); [reflexivity|congruence].
Qed.

Lemma createPost_validation_witness :
  JS.trim "   " = ""
  /\ JS.trim "Transfer news" <> ""
  /\ failure working = None
  /\ failure broken <> None
  /\ store_after (createPost "u7" working "   " "" "" "abc" []) sample_store
     = sample_store
  /\ (exists row,
        store_after (createPost "u7" working "Transfer news" "" "" "abc" [])
          sample_store
        = mkStore (posts sample_store ++ [row]) (comments sample_store)
        /\ Post.upvotes row = 0)
  /\ store_after (createPost "u7" broken "Transfer news" "" "" "abc" []) sample_store
     = sample_store.
Proof.
  assert (H1 : JS.trim "   " = "") by reflexivity.
  assert (H2 : JS.trim "Transfer news" <> "") by discriminate.
  assert (H3 : failure working = None) by reflexivity.
  assert (H4 : failure broken <> None) by discriminate.
  repeat (split; [assumption|]).
  unfold store_after.
  split; [|split].
  - now rewrite (proj1 (createPost_validation "u7" working "   " "" "" "abc" []
                          sample_store) H1).
  - destruct (proj1 (proj2 (createPost_validation "u7" working "Transfer news"
                              "" "" "abc" [] sample_store)) H2 H3)
      as (row & Hrun & Hup & _).
    exists row. now rewrite Hrun.
  - now rewrite (proj2 (proj2 (createPost_validation "u7" broken "Transfer news"
                                 "" "" "abc" [] sample_store)) H2 H4).
Defined.

(** C4 fails when the store refuses the insert: the title "Transfer news"
    is not blank, and the post is not created. *)
Lemma createPost_store_failure_counterexample :
  JS.trim "Transfer news" = "Transfer news"
  /\ run (createPost "u7" broken "Transfer news" "" "" "abc" []) sample_store
     = (tt, mkWorld sample_store
              [Request Insert "posts" None;
               ConsoleError "Error creating post:";
               Alert "Error creating post. Please try again."]).
Proof. split; reflexivity. Qed.

(** C10: trimming only decides whether the text is present.  For a title
    that is not blank after trimming, the row that [createPost] adds
    carries the title exactly as entered, and for a comment that is not
    blank after trimming, the row that [addComment] adds carries the
    content exactly as entered; a row is added exactly when the store
    accepts the insert. *)
Theorem trim_is_only_a_presence_check (userId : string) (srv : Remote)
  (title content image_url secret_key : string) (flags : list string)
  (comment : string) (st : PostPage.State) (s : Store) :
  (JS.trim title <> "" ->
   posts (store_after
            (createPost userId srv title content image_url secret_key flags) s)
   = (posts s
      ++ match failure srv with
         | None =>
             [Post.mk (new_id srv) title (Some content) (Some image_url) 0 (clock srv) userId
                (Some secret_key) (Some flags) None]
         | Some _ => []
         end)%list)
  /\ (JS.trim comment <> "" ->
      comments (store_after (addComment userId srv comment st) s)
      = (comments s
         ++ match failure srv with
            | None =>
                [Comment.mk (new_id srv) (PostPage.id st) comment (clock srv)
                   userId]
            | Some _ => []
            end)%list).
Proof.
  unfold store_after. rewrite createPost_run, addComment_run.
  split; intros H; apply truthy_true in H; rewrite H; simpl;
    destruct (failure srv); simpl; now rewrite ?app_nil_r.
Qed.

Lemma trim_is_only_a_presence_check_witness :
  JS.trim "  Glazers out " <> ""
  /\ JS.trim " Great signing!  " <> ""
  /\ posts (store_after (createPost "u7" working "  Glazers out " "" "" "k" [])
              sample_store)
     = [transfer_news; open_thread; legacy_post;
        Post.mk "p9" "  Glazers out " (Some "") (Some "") 0 9000 "u7" (Some "k") (Some []) None]
  /\ comments (store_after
                 (addComment "u7" working " Great signing!  " (PostPage.init "p2"))
                 sample_store)
     = [great_signing; Comment.mk "p9" "p2" " Great signing!  " 9000 "u7"].
Proof.
  assert (H1 : JS.trim "  Glazers out " <> "") by discriminate.
  assert (H2 : JS.trim " Great signing!  " <> "") by discriminate.
  split; [exact H1|split; [exact H2|]].
  split.
  - exact (proj1 (trim_is_only_a_presence_check "u7" working "  Glazers out "
                    "" "" "k" [] "" (PostPage.init "p2") sample_store) H1).
  - exact (proj2 (trim_is_only_a_presence_check "u7" working "" "" "" "" []
                    " Great signing!  " (PostPage.init "p2") sample_store) H2).
Defined.

(* ================================================================== *)
(** ** The forms *)
(* ================================================================== *)

Lemma array_includes_In (l : list string) (x : string) :
  JS.array_includes l x = true <-> In x l.
Proof.
  unfold JS.array_includes. rewrite existsb_exists. split.
  - intros (y & Hy & E). apply String.eqb_eq in E. now subst.
  - intros H. exists x. split; [exact H|apply String.eqb_refl].
Qed.

Lemma array_includes_not_In (l : list string) (x : string) :
  JS.array_includes l x = false <-> ~ In x l.
Proof.
  rewrite <- array_includes_In. destruct (JS.array_includes l x); split; congruence.
Qed.

Lemma toggled_In (flag g : string) (flags : list string) :
  In g (toggled flag flags)
  <-> (g = flag /\ ~ In flag flags) \/ (g <> flag /\ In g flags).
Proof.
  unfold toggled. destruct (JS.array_includes flags flag) eqn:E.
  - apply array_includes_In in E.
    rewrite filter_In, negb_true_iff, String.eqb_neq.
    split; [intros [H1 H2]; right; auto|].
    intros [[-> H]|[H1 H2]]; [contradiction|auto].
  - apply array_includes_not_In in E.
    rewrite in_app_iff; simpl. split.
    + intros [H|[H|[]]].
      * right. split; [intros ->; contradiction|exact H].
      * left. subst. auto.
    + intros [[-> _]|[_ H]]; auto.
Qed.

Lemma toggled_NoDup (flag : string) (flags : list string) :
  NoDup flags -> NoDup (toggled flag flags).
Proof.
  intros H. unfold toggled. destruct (JS.array_includes flags flag) eqn:E.
  - now apply NoDup_filter.
  - apply array_includes_not_In in E.
    apply NoDup_app; [exact H|repeat constructor; auto|].
    intros x Hx [<-|[]]. contradiction.
Qed.

Lemma filter_none_equal (flag : string) (flags : list string) :
  ~ In flag flags -> filter (fun f => negb (String.eqb f flag)) flags = flags.
Proof.
  induction flags as [|f l IH]; simpl; [reflexivity|].
  intros H. destruct (String.eqb_spec f flag) as [->|Hne]; simpl.
  - exfalso; auto.
  - rewrite IH; auto.
Qed.

(** Ticking a category on either form flips that category, leaves every
    other category and every other field as they were, and never makes a
    category appear twice. *)
Theorem handleFlagToggle_flips (flag : string) (create : CreatePost.FormData)
  (edit : EditPost.FormData) :
  let create' := CreateForm.handleFlagToggle flag create in
  let edit' := EditForm.handleFlagToggle flag edit in
  (In flag (CreatePost.flags create') <-> ~ In flag (CreatePost.flags create))
  /\ (forall g, g <> flag ->
      (In g (CreatePost.flags create') <-> In g (CreatePost.flags create)))
  /\ (NoDup (CreatePost.flags create) -> NoDup (CreatePost.flags create'))
  /\ CreateForm.handleFlagToggle flag create
     = CreatePost.mkForm (CreatePost.title create) (CreatePost.content create)
         (CreatePost.image_url create) (CreatePost.secret_key create)
         (CreatePost.flags create')
  /\ (In flag (EditPost.flags edit') <-> ~ In flag (EditPost.flags edit))
  /\ (forall g, g <> flag ->
      (In g (EditPost.flags edit') <-> In g (EditPost.flags edit)))
  /\ (NoDup (EditPost.flags edit) -> NoDup (EditPost.flags edit'))
  /\ EditForm.handleFlagToggle flag edit
     = EditPost.mkForm (EditPost.title edit) (EditPost.content edit)
         (EditPost.image_url edit) (EditPost.flags edit').
Proof.
  cbv zeta; simpl.
  split; [rewrite toggled_In; tauto|].
  split; [intros g Hg; rewrite toggled_In; tauto|].
  split; [apply toggled_NoDup|].
  split; [reflexivity|].
  split; [rewrite toggled_In; tauto|].
  split; [intros g Hg; rewrite toggled_In; tauto|].
  split; [apply toggled_NoDup|reflexivity].
Qed.

Lemma handleFlagToggle_flips_witness :
  "Opinion" <> "News"
  /\ NoDup ["News"; "Opinion"]
  /\ CreatePost.flags
       (CreateForm.handleFlagToggle "News"
          (CreatePost.mkForm "t" "" "" "k" ["News"; "Opinion"]))
     = ["Opinion"]
  /\ In "Opinion"
       (EditPost.flags
          (EditForm.handleFlagToggle "News"
             (EditPost.mkForm "t" "" "" ["News"; "Opinion"])))
  /\ NoDup
       (CreatePost.flags
          (CreateForm.handleFlagToggle "News"
             (CreatePost.mkForm "t" "" "" "k" ["News"; "Opinion"]))).
Proof.
  assert (H1 : "Opinion" <> "News") by discriminate.
  assert (H2 : NoDup ["News"; "Opinion"]).
  { constructor; [simpl; intuition discriminate|].
    constructor; [simpl; tauto|constructor]. }
  split; [exact H1|split; [exact H2|split; [reflexivity|]]].
  pose proof (handleFlagToggle_flips "News"
                (CreatePost.mkForm "t" "" "" "k" ["News"; "Opinion"])
                (EditPost.mkForm "t" "" "" ["News"; "Opinion"]))
    as (_ & _ & Hnd & _ & _ & Hother & _).
  split.
  - apply (Hother "Opinion" H1). simpl. auto.
  - exact (Hnd H2).
Defined.

(** Ticking the same category twice gives back the same set of
    categories, and the very same list when the category was not ticked
    before. *)
Theorem toggle_twice (flag : string) (flags : list string) :
  (forall g, In g (toggled flag (toggled flag flags)) <-> In g flags)
  /\ (~ In flag flags -> toggled flag (toggled flag flags) = flags).
Proof.
  split.
  - intros g. rewrite !toggled_In.
    destruct (String.eqb_spec g flag) as [->|Hne]; [|tauto].
    destruct (in_dec string_dec flag flags); tauto.
  - intros H. unfold toggled at 2.
    rewrite (proj2 (array_includes_not_In flags flag) H).
    unfold toggled.
    rewrite (proj2 (array_includes_In (flags ++ [flag]) flag))
      by (apply in_app_iff; simpl; auto).
    rewrite filter_app, filter_none_equal by exact H.
    simpl. rewrite String.eqb_refl. simpl. apply app_nil_r.
Qed.

Lemma toggle_twice_witness :
  ~ In "News" ["Opinion"]
  /\ toggled "News" (toggled "News" ["Opinion"]) = ["Opinion"].
Proof.
  assert (H : ~ In "News" ["Opinion"]) by (simpl; intuition discriminate).
  split; [exact H|].
  exact (proj2 (toggle_twice "News" ["Opinion"]) H).
Defined.

(** Whatever boxes are ticked on the create page, in whatever order and
    however often, the flags of the form are distinct values of
    [availableFlags], so there are at most four of them. *)
Theorem ticked_flags_available (ticks : list string) :
  Forall (fun flag => In flag availableFlags) ticks ->
  let formData := fold_left (fun f flag => CreateForm.handleFlagToggle flag f)
                    ticks CreateForm.init in
  NoDup (CreatePost.flags formData)
  /\ incl (CreatePost.flags formData) availableFlags
  /\ (List.length (CreatePost.flags formData) <= 4)%nat.
Proof.
  intros Hticks; cbv zeta.
  assert (Hgen : forall f,
             NoDup (CreatePost.flags f) ->
             incl (CreatePost.flags f) availableFlags ->
             NoDup (CreatePost.flags
                      (fold_left (fun f flag => CreateForm.handleFlagToggle flag f)
                         ticks f))
             /\ incl (CreatePost.flags
                        (fold_left (fun f flag => CreateForm.handleFlagToggle flag f)
                           ticks f))
                  availableFlags).
  { induction Hticks as [|flag ticks Hflag _ IH]; intros f Hnd Hincl; simpl;
      [auto|].
    apply IH; simpl.
    - now apply toggled_NoDup.
    - intros g Hg. apply toggled_In in Hg.
      destruct Hg as [[-> _]|[_ Hg]]; auto. }
  destruct (Hgen CreateForm.init) as [Hnd Hincl];
    [constructor|intros g []|].
  split; [exact Hnd|split; [exact Hincl|]].
  exact (NoDup_incl_length Hnd Hincl).
Qed.

Lemma ticked_flags_available_witness :
  Forall (fun flag => In flag availableFlags) ["News"; "Opinion"; "News"; "Question"]
  /\ CreatePost.flags
       (fold_left (fun f flag => CreateForm.handleFlagToggle flag f)
          ["News"; "Opinion"; "News"; "Question"] CreateForm.init)
     = ["Opinion"; "Question"]
  /\ (List.length
        (CreatePost.flags
           (fold_left (fun f flag => CreateForm.handleFlagToggle flag f)
              ["News"; "Opinion"; "News"; "Question"] CreateForm.init)) <= 4)%nat.
Proof.
  assert (H : Forall (fun flag => In flag availableFlags)
                ["News"; "Opinion"; "News"; "Question"])
    by (repeat constructor; simpl; auto).
  split; [exact H|split; [reflexivity|]].
  exact (proj2 (proj2 (ticked_flags_available
                         ["News"; "Opinion"; "News"; "Question"] H))).
Defined.

(** Typing in inputs of the create page whose name is not "flags" (the
    page has none of that name) never touches the flags; typing twice in
    the same input keeps the last value; typing in two different inputs
    gives the same form in either order. *)
Theorem handleChange_inputs (n1 n2 v1 v2 : string) (formData : CreatePost.FormData) :
  n1 <> "flags" ->
  n2 <> "flags" ->
  exists f1 f2 g,
    CreateForm.handleChange n1 v1 formData = Some f1
    /\ CreateForm.handleChange n2 v2 formData = Some f2
    /\ CreateForm.handleChange n1 v2 formData = Some g
    /\ CreatePost.flags f1 = CreatePost.flags formData
    /\ CreateForm.handleChange n1 v1 g = Some f1
    /\ (n1 <> n2 ->
        CreateForm.handleChange n1 v1 f2 = CreateForm.handleChange n2 v2 f1
        /\ CreateForm.handleChange n1 v1 f2 <> None).
Proof.
  intros Hf1 Hf2. unfold CreateForm.handleChange.
  rewrite (proj2 (String.eqb_neq n1 "flags") Hf1),
    (proj2 (String.eqb_neq n2 "flags") Hf2).
  destruct (String.eqb_spec n1 "title");
    [|destruct (String.eqb_spec n1 "content");
      [|destruct (String.eqb_spec n1 "image_url");
        [|destruct (String.eqb_spec n1 "secret_key")]]];
    (destruct (String.eqb_spec n2 "title");
      [|destruct (String.eqb_spec n2 "content");
        [|destruct (String.eqb_spec n2 "image_url");
          [|destruct (String.eqb_spec n2 "secret_key")]]]);
    do 3 eexists;
    (split; [reflexivity|split; [reflexivity|split; [reflexivity|]]]);
    (split; [reflexivity|split; [reflexivity|]]);
    intros Hne; subst; try congruence; simpl; split; congruence.
Qed.

Lemma handleChange_inputs_witness :
  "title" <> "flags"
  /\ "secret_key" <> "flags"
  /\ "title" <> "secret_key"
  /\ exists f2,
       CreateForm.handleChange "secret_key" "abc" CreateForm.init = Some f2
       /\ CreateForm.handleChange "title" "Transfer news" f2
          = Some (CreatePost.mkForm "Transfer news" "" "" "abc" []).
Proof.
  assert (H1 : "title" <> "flags") by discriminate.
  assert (H2 : "secret_key" <> "flags") by discriminate.
  assert (H3 : "title" <> "secret_key") by discriminate.
  repeat (split; [assumption|]).
  destruct (handleChange_inputs "title" "secret_key" "Transfer news" "abc"
              CreateForm.init H1 H2)
    as (f1 & f2 & g & E1 & E2 & _ & _ & _ & Hcomm).
  exists f2. split; [exact E2|].
  rewrite (proj1 (Hcomm H3)).
  injection E1 as <-. reflexivity.
Defined.

(* ================================================================== *)
(** ** HomeFeed: more on truncation, relative time and the filter *)
(* ================================================================== *)

Lemma append_assoc (a b c : string) : (a ++ b) ++ c = a ++ (b ++ c).
Proof. induction a as [|x a IH]; simpl; [reflexivity|now rewrite IH]. Qed.

Lemma append_nil_r (a : string) : a ++ "" = a.
Proof. induction a as [|x a IH]; simpl; [reflexivity|now rewrite IH]. Qed.

Lemma split_space_nonempty (s : string) : JS.split_space s <> [].
Proof.
  pose proof (split_space_length s) as H.
  destruct (JS.split_space s); [simpl in H; lia|discriminate].
Qed.

Lemma join_space_cons (w : string) (ws : list string) :
  ws <> [] -> JS.join_space (w :: ws) = w ++ " " ++ JS.join_space ws.
Proof. destruct ws; [congruence|reflexivity]. Qed.

(** Joining the pieces of a split gives the text back. *)
Lemma join_split (s : string) : JS.join_space (JS.split_space s) = s.
Proof.
  induction s as [|c r IH]; [reflexivity|].
  simpl JS.split_space. destruct (Ascii.eqb_spec c " ") as [->|Hc].
  - rewrite join_space_cons by apply split_space_nonempty.
    simpl. now rewrite IH.
  - pose proof (split_space_nonempty r) as Hne.
    destruct (JS.split_space r) as [|w ws]; [congruence|].
    destruct ws as [|w' ws].
    + simpl in *. now rewrite IH.
    + rewrite join_space_cons by discriminate.
      rewrite join_space_cons in IH by discriminate.
      rewrite <- IH. reflexivity.
Qed.

Lemma join_firstn_prefix (ws : list string) :
  forall n, exists rest,
    JS.join_space ws = JS.join_space (firstn n ws) ++ rest.
Proof.
  induction ws as [|w ws IH]; intros n.
  - exists "". now destruct n.
  - destruct n as [|n]; [now exists (JS.join_space (w :: ws))|].
    destruct ws as [|w' ws].
    + exists "". destruct n; simpl; now rewrite append_nil_r.
    + destruct (IH n) as [rest Hrest].
      rewrite join_space_cons by discriminate.
      destruct n as [|n].
      * exists (" " ++ JS.join_space (w' :: ws)). reflexivity.
      * change (firstn (S (S n)) (w :: w' :: ws))
          with (w :: firstn (S n) (w' :: ws)).
        rewrite (join_space_cons w (firstn (S n) (w' :: ws)))
          by (simpl; discriminate).
        exists rest. rewrite Hrest. now rewrite !append_assoc.
Qed.

(** [truncateText] never invents text: for every [maxWords], negative
    ones included, the result is the text itself or a prefix of the text
    followed by "...". *)
Theorem truncateText_prefix (text : string) (maxWords : Z) :
  HomeFeed.truncateText text maxWords = text
  \/ exists pre rest,
       text = pre ++ rest
       /\ HomeFeed.truncateText text maxWords = pre ++ "...".
Proof.
  unfold HomeFeed.truncateText; cbv zeta.
  destruct (Z.of_nat (List.length (JS.split_space text)) <=? maxWords);
    [now left|right].
  unfold JS.slice0.
  destruct (join_firstn_prefix (JS.split_space text)
              (Z.to_nat
                 (if maxWords <? 0
                  then Z.max (Z.of_nat (List.length (JS.split_space text)) + maxWords) 0
                  else Z.min maxWords (Z.of_nat (List.length (JS.split_space text))))))
    as [rest Hrest].
  rewrite join_split in Hrest. eauto.
Qed.

Lemma split_space_single_app (w r : string) :
  JS.split_space w = [w] ->
  JS.split_space (w ++ String " " r) = w :: JS.split_space r.
Proof.
  induction w as [|c w IH]; intros H; [reflexivity|].
  simpl in H |- *. destruct (Ascii.eqb c " ").
  - pose proof (split_space_nonempty w).
    injection H as _ H. congruence.
  - destruct (JS.split_space w) as [|w0 ws0] eqn:E;
      [now apply split_space_nonempty in E|].
    injection H as H1 H2. subst.
    now rewrite IH.
Qed.

Lemma split_space_pieces (s : string) :
  Forall (fun w => JS.split_space w = [w]) (JS.split_space s).
Proof.
  induction s as [|c r IH]; simpl; [now repeat constructor|].
  destruct (Ascii.eqb c " ") eqn:Ec; [now constructor|].
  destruct (JS.split_space r) as [|w ws]; [now repeat constructor; simpl; rewrite Ec|].
  inversion IH as [|? ? Hw Hws]; subst.
  constructor; [|exact Hws].
  simpl. now rewrite Ec, Hw.
Qed.

Lemma split_join (ws : list string) :
  ws <> [] ->
  Forall (fun w => JS.split_space w = [w]) ws ->
  JS.split_space (JS.join_space ws) = ws.
Proof.
  induction ws as [|w ws IH]; intros Hne Hall; [congruence|].
  inversion Hall as [|? ? Hw Hws]; subst.
  destruct ws as [|w' ws]; [exact Hw|].
  rewrite join_space_cons by discriminate.
  change (w ++ " " ++ JS.join_space (w' :: ws))
    with (w ++ String " " (JS.join_space (w' :: ws))).
  rewrite split_space_single_app by exact Hw.
  now rewrite IH.
Qed.

Lemma split_space_app_length (s t : string) :
  JS.split_space t = [t] ->
  List.length (JS.split_space (s ++ t)) = List.length (JS.split_space s).
Proof.
  intros Ht. induction s as [|c r IH]; simpl; [now rewrite Ht|].
  destruct (Ascii.eqb c " "); simpl; [now rewrite IH|].
  pose proof (split_space_nonempty r) as H1.
  pose proof (split_space_nonempty (r ++ t)) as H2.
  destruct (JS.split_space r), (JS.split_space (r ++ t)); simpl in *; congruence.
Qed.

(** For [maxWords >= 0], truncating a text that is already truncated
    changes nothing. *)
Theorem truncateText_idempotent (text : string) (maxWords : Z) :
  0 <= maxWords ->
  HomeFeed.truncateText (HomeFeed.truncateText text maxWords) maxWords
  = HomeFeed.truncateText text maxWords.
Proof.
  intros Hm. unfold HomeFeed.truncateText at 2 3; cbv zeta.
  destruct (Z.leb_spec (Z.of_nat (List.length (JS.split_space text))) maxWords)
    as [Hle|Hgt].
  - unfold HomeFeed.truncateText; cbv zeta.
    now rewrite (proj2 (Z.leb_le _ _) Hle).
  - rewrite slice0_firstn by lia.
    destruct (Z.to_nat maxWords) as [|k] eqn:Ek.
    + assert (maxWords = 0) by lia. subst. reflexivity.
    + set (ws := firstn (S k) (JS.split_space text)).
      assert (Hlen : List.length ws = S k)
        by (unfold ws; rewrite length_firstn; lia).
      assert (Hne : ws <> []) by (intros E; rewrite E in Hlen; discriminate).
      assert (Hall : Forall (fun w => JS.split_space w = [w]) ws).
      { unfold ws. rewrite <- (firstn_skipn (S k) (JS.split_space text)) at 1.
        pose proof (split_space_pieces text) as H.
        rewrite <- (firstn_skipn (S k) (JS.split_space text)) in H.
        apply Forall_app in H. 
        rewrite firstn_app, firstn_firstn, Nat.min_id.
        rewrite length_firstn.
        replace (S k - Nat.min (S k) (List.length (JS.split_space text)))%nat
          with 0%nat by lia.
        simpl. rewrite app_nil_r. exact (proj1 H). }
      unfold HomeFeed.truncateText; cbv zeta.
      rewrite split_space_app_length by reflexivity.
      rewrite split_join by assumption.
      rewrite Hlen.
      now rewrite (proj2 (Z.leb_le (Z.of_nat (S k)) maxWords)) by lia.
Qed.

Lemma truncateText_idempotent_witness :
  0 <= 2
  /\ HomeFeed.truncateText (HomeFeed.truncateText "glory glory man united" 2) 2
     = "glory glory...".
Proof.
  split; [lia|].
  rewrite (truncateText_idempotent "glory glory man united" 2); [reflexivity|lia].
Defined.

(** The label of [formatTimeAgo] is "Just now", a number of hours from 1
    to 23, or a number of days from 1 on; a date in the future reads
    "Just now". *)
Theorem formatTimeAgo_range (now date : Z) :
  (HomeFeed.formatTimeAgo now date = "Just now"
   \/ (exists n, 1 <= n <= 23
                 /\ HomeFeed.formatTimeAgo now date = JS.toString n ++ "h ago")
   \/ (exists n, 1 <= n
                 /\ HomeFeed.formatTimeAgo now date = JS.toString n ++ "d ago"))
  /\ (now <= date -> HomeFeed.formatTimeAgo now date = "Just now").
Proof.
  unfold HomeFeed.formatTimeAgo; cbv zeta.
  split.
  - destruct (Z.ltb_spec ((now - date) / (1000 * 60 * 60)) 1) as [H1|H1];
      [now left|right].
    destruct (Z.ltb_spec ((now - date) / (1000 * 60 * 60)) 24) as [H2|H2].
    + left. exists ((now - date) / (1000 * 60 * 60)). split; [lia|reflexivity].
    + right. exists ((now - date) / (1000 * 60 * 60) / 24).
      split; [|reflexivity].
      apply Z.div_le_lower_bound; lia.
  - intros H. pose proof (hours_lt (now - date) 1 ltac:(lia)).
    destruct (Z.ltb_spec ((now - date) / (1000 * 60 * 60)) 1); [reflexivity|lia].
Qed.

Lemma formatTimeAgo_range_witness :
  1000 <= 5000 /\ HomeFeed.formatTimeAgo 1000 5000 = "Just now".
Proof.
  split; [lia|].
  apply (proj2 (formatTimeAgo_range 1000 5000)). lia.
Defined.

Lemma filter_filter {A} (f g : A -> bool) (l : list A) :
  filter f (filter g l) = filter (fun x => g x && f x) l.
Proof.
  induction l as [|x l IH]; simpl; [reflexivity|].
  destruct (g x); simpl; [destruct (f x)|]; now rewrite ?IH.
Qed.

Lemma matches_split (searchTerm filterFlag : string) (post : Post.t) :
  HomeFeed.matches searchTerm filterFlag post
  = HomeFeed.matches searchTerm "" post && HomeFeed.matches "" filterFlag post.
Proof.
  unfold HomeFeed.matches. simpl JS.toLowerCase. simpl JS.truthy.
  rewrite includes_empty. simpl. now rewrite andb_true_r.
Qed.

(** Searching and choosing a category can be done one after the other, in
    either order, with the result of doing both at once; more generally
    two filters of the feed commute. *)
Theorem filteredPosts_compose (posts : list Post.t) (s1 f1 s2 f2 : string) :
  HomeFeed.filteredPosts (HomeFeed.filteredPosts posts s1 "") "" f1
  = HomeFeed.filteredPosts posts s1 f1
  /\ HomeFeed.filteredPosts (HomeFeed.filteredPosts posts "" f1) s1 ""
     = HomeFeed.filteredPosts posts s1 f1
  /\ HomeFeed.filteredPosts (HomeFeed.filteredPosts posts s1 f1) s2 f2
     = HomeFeed.filteredPosts (HomeFeed.filteredPosts posts s2 f2) s1 f1.
Proof.
  unfold HomeFeed.filteredPosts. rewrite !filter_filter.
  split; [|split]; apply filter_ext; intros p.
  - now rewrite (matches_split s1 f1).
  - rewrite (matches_split s1 f1). apply andb_comm.
  - apply andb_comm.
Qed.

Lemma prefix_spec (a b : string) :
  String.prefix a b = true <-> exists r, b = a ++ r.
Proof.
  revert b. induction a as [|x a IH]; intros b; simpl.
  - split; [intros _; now exists b|now destruct b].
  - destruct b as [|y b]; simpl;
      [split; [discriminate|intros [r H]; discriminate]|].
    destruct (ascii_dec x y) as [->|Hne].
    + rewrite IH. split; intros [r H]; exists r; congruence.
    + split; [discriminate|intros [r H]; congruence].
Qed.

Lemma includes_unfold (s sub : string) :
  JS.includes s sub
  = if String.prefix sub s then true
    else match s with
         | EmptyString => false
         | String _ r => JS.includes r sub
         end.
Proof. destruct s; reflexivity. Qed.

(** [includes] finds exactly the contiguous occurrences. *)
Lemma includes_spec (s sub : string) :
  JS.includes s sub = true <-> exists pre post, s = pre ++ sub ++ post.
Proof.
  induction s as [|c r IH]; rewrite includes_unfold.
  - destruct (String.prefix sub "") eqn:E.
    + apply prefix_spec in E. destruct E as [t Ht].
      split; [intros _; now exists "", t|reflexivity].
    + split; [discriminate|].
      intros (pre & post & H). destruct pre; simpl in H.
      * assert (String.prefix sub "" = true)
          by (apply prefix_spec; now exists post).
        congruence.
      * discriminate.
  - destruct (String.prefix sub (String c r)) eqn:E.
    + apply prefix_spec in E. destruct E as [t Ht].
      split; [intros _; now exists "", t|reflexivity].
    + rewrite IH. split.
      * intros (pre & post & H). exists (String c pre), post. simpl. congruence.
      * intros (pre & post & H). destruct pre as [|x pre]; simpl in H.
        -- assert (String.prefix sub (String c r) = true)
             by (apply prefix_spec; now exists post).
           congruence.
        -- injection H as _ H. now exists pre, post.
Qed.

(** A post is shown in the feed exactly when it is among the posts, its
    title in lower case contains the search term in lower case as a
    contiguous piece, and either no category is chosen or the chosen
    category is one of its flags; a post without flags is hidden as soon
    as a category is chosen. *)
Theorem filteredPosts_shows (posts : list Post.t) (searchTerm filterFlag : string)
  (post : Post.t) :
  (In post (HomeFeed.filteredPosts posts searchTerm filterFlag)
   <-> In post posts
       /\ (exists pre rest,
             JS.toLowerCase (Post.title post)
             = pre ++ JS.toLowerCase searchTerm ++ rest)
       /\ (filterFlag = ""
           \/ exists fl, Post.flags post = Some fl /\ In filterFlag fl))
  /\ (filterFlag <> "" -> Post.flags post = None ->
      ~ In post (HomeFeed.filteredPosts posts searchTerm filterFlag)).
Proof.
  assert (Hiff : In post (HomeFeed.filteredPosts posts searchTerm filterFlag)
                 <-> In post posts
                     /\ (exists pre rest,
                           JS.toLowerCase (Post.title post)
                           = pre ++ JS.toLowerCase searchTerm ++ rest)
                     /\ (filterFlag = ""
                         \/ exists fl, Post.flags post = Some fl
                                       /\ In filterFlag fl)).
  { unfold HomeFeed.filteredPosts, HomeFeed.matches.
    rewrite filter_In, andb_true_iff, orb_true_iff, negb_true_iff,
      includes_spec, truthy_false.
    destruct (Post.flags post) as [fl|].
    - rewrite array_includes_In. split.
      + intros (H1 & H2 & [H3|H3]); repeat split; eauto.
      + intros (H1 & H2 & [H3|(fl' & E & H3)]); repeat split; auto.
        injection E as <-. auto.
    - split.
      + intros (H1 & H2 & [H3|H3]); [auto|discriminate].
      + intros (H1 & H2 & [H3|(fl' & E & H3)]); [auto|discriminate]. }
  split; [exact Hiff|].
  intros Hf Hnull Hin. apply Hiff in Hin.
  destruct Hin as (_ & _ & [H|(fl & E & _)]); congruence.
Qed.

Lemma filteredPosts_shows_witness :
  "News" <> ""
  /\ Post.flags legacy_post = None
  /\ ~ In legacy_post (HomeFeed.filteredPosts (posts sample_store) "" "News")
  /\ In transfer_news (HomeFeed.filteredPosts (posts sample_store) "NEWS" "News").
Proof.
  assert (H1 : "News" <> "") by discriminate.
  assert (H2 : Post.flags legacy_post = None) by reflexivity.
  split; [exact H1|split; [exact H2|split]].
  - exact (proj2 (filteredPosts_shows (posts sample_store) "" "News" legacy_post)
             H1 H2).
  - apply (proj1 (filteredPosts_shows (posts sample_store) "NEWS" "News"
                    transfer_news)).
    split; [simpl; auto|split].
    + exists "transfer ", "". reflexivity.
    + right. exists ["News"]. split; [reflexivity|simpl; auto].
Defined.

Lemma lower_char_idempotent (c : ascii) :
  JS.lower_char (JS.lower_char c) = JS.lower_char c.
Proof. destruct c as [[] [] [] [] [] [] [] []]; reflexivity. Qed.

Lemma toLowerCase_idempotent (s : string) :
  JS.toLowerCase (JS.toLowerCase s) = JS.toLowerCase s.
Proof.
  induction s as [|c r IH]; simpl; [reflexivity|].
  now rewrite lower_char_idempotent, IH.
Qed.

(** The search ignores letter case on both sides: the search term may be
    replaced by its lower case, and so may the titles of the posts. *)
Theorem search_ignores_case (posts : list Post.t) (searchTerm filterFlag : string)
  (post : Post.t) :
  HomeFeed.filteredPosts posts (JS.toLowerCase searchTerm) filterFlag
  = HomeFeed.filteredPosts posts searchTerm filterFlag
  /\ HomeFeed.matches searchTerm filterFlag
       (Post.mk (Post.id post) (JS.toLowerCase (Post.title post))
          (Post.content post) (Post.image_url post) (Post.upvotes post)
          (Post.created_at post) (Post.user_id post) (Post.secret_key post)
          (Post.flags post) (Post.repost_id post))
     = HomeFeed.matches searchTerm filterFlag post.
Proof.
  split.
  - unfold HomeFeed.filteredPosts. apply filter_ext. intros p.
    unfold HomeFeed.matches.
    rewrite toLowerCase_idempotent.
    destruct filterFlag; reflexivity.
  - unfold HomeFeed.matches; simpl.
    now rewrite toLowerCase_idempotent.
Qed.

(* ================================================================== *)
(** ** HomeFeed: loading the posts and counting the comments *)
(* ================================================================== *)

Lemma Obj_get_set_same (o : Obj.t) (k : string) (v : Z) :
  Obj.get (Obj.set o k v) k = Some v.
Proof.
  induction o as [|[k' v'] o IH]; simpl.
  - now rewrite String.eqb_refl.
  - destruct (String.eqb_spec k' k) as [->|Hne]; simpl.
    + now rewrite String.eqb_refl.
    + now rewrite (proj2 (String.eqb_neq k' k) Hne).
Qed.

Lemma Obj_get_set_other (o : Obj.t) (k k' : string) (v : Z) :
  k <> k' -> Obj.get (Obj.set o k v) k' = Obj.get o k'.
Proof.
  intros Hne. induction o as [|[k0 v0] o IH]; simpl.
  - now rewrite (proj2 (String.eqb_neq k k') Hne).
  - destruct (String.eqb_spec k0 k) as [->|Hne0]; simpl.
    + now rewrite (proj2 (String.eqb_neq k k') Hne).
    + now rewrite IH.
Qed.

Lemma zeroed_get (postIds : list string) (id : string) :
  forall o,
  Obj.get (fold_left (fun counts id => Obj.set counts id 0) postIds o) id
  = if in_dec string_dec id postIds then Some 0 else Obj.get o id.
Proof.
  induction postIds as [|k ks IH]; intros o; simpl; [reflexivity|].
  rewrite IH.
  destruct (in_dec string_dec id ks) as [Hin|Hout].
  - destruct (string_dec k id); reflexivity.
  - destruct (string_dec k id) as [->|Hne].
    + apply Obj_get_set_same.
    + now apply Obj_get_set_other.
Qed.

Lemma counted_get (data : list string) (id : string) :
  forall o,
  Obj.get
    (fold_left
       (fun counts post_id =>
          Obj.set counts post_id (Obj.or_zero (Obj.get counts post_id) + 1))
       data o) id
  = match count_occ string_dec data id, Obj.get o id with
    | O, x => x
    | n, x => Some (Obj.or_zero x + Z.of_nat n)
    end.
Proof.
  induction data as [|k ks IH]; intros o; simpl; [reflexivity|].
  rewrite IH. destruct (string_dec k id) as [->|Hne].
  - rewrite Obj_get_set_same. simpl Obj.or_zero.
    destruct (count_occ string_dec ks id) as [|n]; f_equal; lia.
  - now rewrite Obj_get_set_other.
Qed.

Lemma count_occ_of_post (P : string -> bool) (cs : list Comment.t) (id : string) :
  P id = true ->
  count_occ string_dec
    (map Comment.post_id (filter (fun c => P (Comment.post_id c)) cs)) id
  = List.length (filter (Table.of_post id) cs).
Proof.
  intros HP. induction cs as [|c cs IH]; simpl; [reflexivity|].
  unfold Table.of_post at 1.
  destruct (String.eqb_spec (Comment.post_id c) id) as [E|Hne].
  - rewrite E, HP. simpl. rewrite E.
    destruct (string_dec id id); [|congruence]. simpl. now rewrite IH.
  - destruct (P (Comment.post_id c)); simpl; [|exact IH].
    destruct (string_dec (Comment.post_id c) id); [congruence|exact IH].
Qed.

Lemma count_get (postIds : list string) (cs : list Comment.t) (id : string) :
  Obj.get
    (Feed.count postIds
       (map Comment.post_id
          (filter (fun c => JS.array_includes postIds (Comment.post_id c)) cs)))
    id
  = if in_dec string_dec id postIds
    then Some (Z.of_nat (List.length (filter (Table.of_post id) cs)))
    else None.
Proof.
  unfold Feed.count. rewrite counted_get, zeroed_get.
  destruct (in_dec string_dec id postIds) as [Hin|Hout].
  - rewrite (count_occ_of_post (JS.array_includes postIds))
      by now apply array_includes_In.
    destruct (List.length (filter (Table.of_post id) cs)); reflexivity.
  - assert (H : count_occ string_dec
                  (map Comment.post_id
                     (filter
                        (fun c => JS.array_includes postIds (Comment.post_id c))
                        cs)) id = O).
    { apply count_occ_not_In. intros Hin. apply in_map_iff in Hin.
      destruct Hin as (c & <- & Hc). apply filter_In in Hc.
      apply Hout. now apply array_includes_In. }
    now rewrite H.
Qed.

Lemma fetchCommentCounts_run (failure : option string) (postIds : list string)
  (st : Feed.State) (w : World) :
  Feed.fetchCommentCounts failure postIds st w
  = match failure with
    | None =>
        (Feed.setCommentCounts
           (Feed.count postIds
              (map Comment.post_id
                 (filter (fun c => JS.array_includes postIds (Comment.post_id c))
                    (comments (db w)))))
           st,
         mkWorld (db w)
           (trace w
            ++ [Request Select "comments"
                  (Some ("post_id", String.concat "," postIds))]))
    | Some _ =>
        (st,
         mkWorld (db w)
           ((trace w
             ++ [Request Select "comments"
                   (Some ("post_id", String.concat "," postIds))])
            ++ [ConsoleError "Error fetching comment counts:"]))
    end.
Proof. destruct failure; reflexivity. Qed.

(** [fetchCommentCounts] gives every post id it is asked about the exact
    number of comments the store holds for that post, zero included, and
    no entry to any other id; it only reads.  When the request fails the
    counts on the page stay as they were. *)
Theorem fetchCommentCounts_exact (postIds : list string) (st : Feed.State)
  (s : Store) (id : string) :
  let st' := fst (run (Feed.fetchCommentCounts None postIds st) s) in
  (In id postIds ->
   Obj.get (Feed.commentCounts st') id
   = Some (Z.of_nat (List.length (filter (Table.of_post id) (comments s)))))
  /\ (~ In id postIds -> Obj.get (Feed.commentCounts st') id = None)
  /\ Feed.posts st' = Feed.posts st
  /\ store_after (Feed.fetchCommentCounts None postIds st) s = s
  /\ (forall e,
      fst (run (Feed.fetchCommentCounts (Some e) postIds st) s) = st).
Proof.
  cbv zeta. unfold store_after, run. rewrite !fetchCommentCounts_run. simpl.
  rewrite count_get.
  destruct (in_dec string_dec id postIds); repeat split; auto; tauto.
Qed.

Lemma fetchCommentCounts_exact_witness :
  In "p1" ["p1"; "p2"]
  /\ ~ In "p3" ["p1"; "p2"]
  /\ Feed.commentCounts
       (fst (run (Feed.fetchCommentCounts None ["p1"; "p2"] Feed.init)
               sample_store))
     = [("p1", 1); ("p2", 0)]
  /\ Obj.get
       (Feed.commentCounts
          (fst (run (Feed.fetchCommentCounts None ["p1"; "p2"] Feed.init)
                  sample_store))) "p1"
     = Some 1
  /\ Obj.get
       (Feed.commentCounts
          (fst (run (Feed.fetchCommentCounts None ["p1"; "p2"] Feed.init)
                  sample_store))) "p3"
     = None.
Proof.
  assert (H1 : In "p1" ["p1"; "p2"]) by (simpl; auto).
  assert (H2 : ~ In "p3" ["p1"; "p2"]) by (simpl; intuition discriminate).
  split; [exact H1|split; [exact H2|split; [reflexivity|]]].
  split.
  - exact (proj1 (fetchCommentCounts_exact ["p1"; "p2"] Feed.init sample_store
                    "p1") H1).
  - exact (proj1 (proj2 (fetchCommentCounts_exact ["p1"; "p2"] Feed.init
                           sample_store "p3")) H2).
Defined.

Section Ordering.

Context {A : Type} (before : A -> A -> bool).
Hypothesis before_total : forall x y, before x y = false -> before y x = true.
Hypothesis before_trans :
  forall x y z, before x y = true -> before y z = true -> before x z = true.

Lemma insert_by_perm (x : A) (l : list A) :
  Permutation (insert_by before x l) (x :: l).
Proof.
  induction l as [|y l IH]; simpl; [reflexivity|].
  destruct (before x y); [reflexivity|].
  rewrite IH. apply perm_swap.
Qed.

Lemma order_by_perm (l : list A) : Permutation (order_by before l) l.
Proof.
  induction l as [|x l IH]; simpl; [reflexivity|].
  rewrite insert_by_perm. now constructor.
Qed.

Lemma insert_by_sorted (x : A) (l : list A) :
  StronglySorted (fun a b => before a b = true) l ->
  StronglySorted (fun a b => before a b = true) (insert_by before x l).
Proof.
  induction l as [|y l IH]; intros Hs; simpl.
  - constructor; [constructor|constructor].
  - inversion Hs as [|? ? Hs' Hall]; subst.
    destruct (before x y) eqn:E.
    + constructor; [exact Hs|].
      constructor; [exact E|].
      eapply Forall_impl; [|exact Hall]. intros z Hz. eauto.
    + constructor; [now apply IH|].
      eapply Permutation_Forall; [symmetry; apply insert_by_perm|].
      constructor; [now apply before_total|exact Hall].
Qed.

Lemma order_by_sorted (l : list A) :
  StronglySorted (fun a b => before a b = true) (order_by before l).
Proof.
  induction l as [|x l IH]; simpl; [constructor|].
  now apply insert_by_sorted.
Qed.

End Ordering.

Lemma StronglySorted_weaken {A} (R S : A -> A -> Prop) (l : list A) :
  (forall a b, R a b -> S a b) -> StronglySorted R l -> StronglySorted S l.
Proof.
  intros H Hs. induction Hs as [|x l Hs IH Hall]; constructor; auto.
  eapply Forall_impl; [|exact Hall]. auto.
Qed.

Lemma descending_sorted {A} (key : A -> Z) (l : list A) :
  StronglySorted (fun a b => key b <= key a) (order_by (descending key) l).
Proof.
  eapply StronglySorted_weaken;
    [|apply (order_by_sorted (descending key))].
  - intros a b H. now apply Z.leb_le.
  - unfold descending. intros x y H.
    apply Z.leb_le. apply Z.leb_gt in H. lia.
  - unfold descending. intros x y z H1 H2.
    apply Z.leb_le in H1, H2. apply Z.leb_le. lia.
Qed.

Lemma ascending_sorted {A} (key : A -> Z) (l : list A) :
  StronglySorted (fun a b => key a <= key b) (order_by (ascending key) l).
Proof.
  eapply StronglySorted_weaken;
    [|apply (order_by_sorted (ascending key))].
  - intros a b H. now apply Z.leb_le.
  - unfold ascending. intros x y H.
    apply Z.leb_le. apply Z.leb_gt in H. lia.
  - unfold ascending. intros x y z H1 H2.
    apply Z.leb_le in H1, H2. apply Z.leb_le. lia.
Qed.

Lemma fetchPosts_run (postsFailure countsFailure : option string)
  (st : Feed.State) (w : World) :
  Feed.fetchPosts postsFailure countsFailure st w
  = match postsFailure with
    | Some _ =>
        (Feed.setLoading false st,
         mkWorld (db w)
           ((trace w
             ++ [Request Select "posts"
                   (Some ("order", Feed.column_name (Feed.sort st) ++ ".desc"))])
            ++ [ConsoleError "Error fetching posts:"]))
    | None =>
        let data := order_by (descending (Feed.column (Feed.sort st)))
                      (posts (db w)) in
        let (st', w') :=
          Feed.fetchCommentCounts countsFailure (map Post.id data)
            (Feed.setPosts data (Feed.setLoading true st))
            (mkWorld (db w)
               (trace w
                ++ [Request Select "posts"
                      (Some ("order",
                             Feed.column_name (Feed.sort st) ++ ".desc"))])) in
        (Feed.setLoading false st', w')
    end.
Proof. destruct postsFailure; reflexivity. Qed.

(** When the store answers, [fetchPosts] puts on the page all the posts
    of the store, each as often as the store has it, ordered from the
    largest to the smallest value of the chosen column, and the page
    stops loading; the store is only read. *)
Theorem fetchPosts_sorted (countsFailure : option string) (st : Feed.State)
  (s : Store) :
  let st' := fst (run (Feed.fetchPosts None countsFailure st) s) in
  Permutation (Feed.posts st') (posts s)
  /\ StronglySorted
       (fun a b => Feed.column (Feed.sort st) b <= Feed.column (Feed.sort st) a)
       (Feed.posts st')
  /\ Feed.loading st' = false
  /\ Feed.sort st' = Feed.sort st
  /\ store_after (Feed.fetchPosts None countsFailure st) s = s.
Proof.
  cbv zeta. unfold store_after, run. rewrite fetchPosts_run. cbv zeta.
  rewrite fetchCommentCounts_run.
  destruct countsFailure; simpl;
    (split; [apply order_by_perm|split; [apply descending_sorted|auto]]).
Qed.

(** When both requests are answered, every card of the feed shows the
    number of comments that the store holds for its post.  When only the
    count request fails, the posts are replaced and the counts are the
    ones the page had before. *)
Theorem fetchPosts_counts (st : Feed.State) (s : Store) (post : Post.t) :
  (In post (Feed.posts (fst (run (Feed.fetchPosts None None st) s))) ->
   Feed.shown_count (fst (run (Feed.fetchPosts None None st) s)) post
   = Z.of_nat (List.length (filter (Table.of_post (Post.id post)) (comments s))))
  /\ (forall e,
      Feed.commentCounts (fst (run (Feed.fetchPosts None (Some e) st) s))
      = Feed.commentCounts st).
Proof.
  unfold run. rewrite !fetchPosts_run. cbv zeta.
  rewrite !fetchCommentCounts_run. simpl. split; [|reflexivity].
  intros Hin. unfold Feed.shown_count. simpl.
  rewrite count_get.
  destruct (in_dec string_dec (Post.id post)
              (map Post.id
                 (order_by (descending (Feed.column (Feed.sort st))) (posts s))))
    as [_|Hout]; [reflexivity|].
  exfalso. apply Hout. now apply in_map.
Qed.

Lemma fetchPosts_counts_witness :
  In transfer_news
    (Feed.posts (fst (run (Feed.fetchPosts None None Feed.init) sample_store)))
  /\ Feed.posts (fst (run (Feed.fetchPosts None None Feed.init) sample_store))
     = [open_thread; transfer_news; legacy_post]
  /\ Feed.shown_count
       (fst (run (Feed.fetchPosts None None Feed.init) sample_store))
       transfer_news
     = 1.
Proof.
  assert (H : In transfer_news
                (Feed.posts
                   (fst (run (Feed.fetchPosts None None Feed.init) sample_store))))
    by (simpl; auto).
  split; [exact H|split; [reflexivity|]].
  exact (proj1 (fetchPosts_counts Feed.init sample_store transfer_news) H).
Defined.

(** When the store refuses to list the posts, the page keeps the posts
    and the counts it had, logs the error, stops loading, and does not
    ask for the counts. *)
Theorem fetchPosts_failure (e : string) (countsFailure : option string)
  (st : Feed.State) (s : Store) :
  run (Feed.fetchPosts (Some e) countsFailure st) s
  = (Feed.setLoading false st,
     mkWorld s
       [Request Select "posts"
          (Some ("order", Feed.column_name (Feed.sort st) ++ ".desc"));
        ConsoleError "Error fetching posts:"]).
Proof. reflexivity. Qed.

(* ================================================================== *)
(** ** PostPage: the thread *)
(* ================================================================== *)

Lemma fetchComments_run (failure : option string) (st : PostPage.State)
  (w : World) :
  Thread.fetchComments failure st w
  = match failure with
    | None =>
        (PostPage.setComments
           (order_by (ascending Comment.created_at)
              (filter (Table.of_post (PostPage.id st)) (comments (db w))))
           st,
         mkWorld (db w)
           (trace w
            ++ [Request Select "comments" (Some ("post_id", PostPage.id st))]))
    | Some _ =>
        (st,
         mkWorld (db w)
           ((trace w
             ++ [Request Select "comments" (Some ("post_id", PostPage.id st))])
            ++ [ConsoleError "Error fetching comments:"]))
    end.
Proof. destruct failure; reflexivity. Qed.

(** [fetchComments] puts on the page exactly the comments of the post of
    the page, oldest first: a comment is listed if and only if the store
    holds it with this post id.  When the request fails the page keeps
    the comments it had. *)
Theorem fetchComments_thread (st : PostPage.State) (s : Store) (c : Comment.t) :
  let st' := fst (run (Thread.fetchComments None st) s) in
  (In c (PostPage.comments st')
   <-> In c (comments s) /\ Comment.post_id c = PostPage.id st)
  /\ Permutation (PostPage.comments st')
       (filter (Table.of_post (PostPage.id st)) (comments s))
  /\ StronglySorted (fun a b => Comment.created_at a <= Comment.created_at b)
       (PostPage.comments st')
  /\ PostPage.post st' = PostPage.post st
  /\ (forall e, fst (run (Thread.fetchComments (Some e) st) s) = st).
Proof.
  cbv zeta. unfold run. rewrite !fetchComments_run. simpl.
  split; [|split; [apply order_by_perm|split; [apply ascending_sorted|auto]]].
  rewrite <- (String.eqb_eq (Comment.post_id c) (PostPage.id st)).
  rewrite <- (filter_In (Table.of_post (PostPage.id st))).
  split; apply Permutation_in;
    [apply order_by_perm|symmetry; apply order_by_perm].
Qed.

(* ================================================================== *)
(** ** PostPage: upvotes from a page that is out of date *)
(* ================================================================== *)

(** An accepted upvote stores the count of the page plus one (for a
    count below 2^53, where the addition of doubles is exact), whatever
    count the store holds: two pages that loaded the same post with [U]
    upvotes and upvote one after the other leave [U + 1], not [U + 2]. *)
Theorem handleUpvote_writes_page_count (st1 st2 : PostPage.State) (s : Store)
  (p q : Post.t) :
  PostPage.post st1 = Some p ->
  getPost (Post.id p) s = Some q ->
  - 9007199254740992 <= Post.upvotes p < 9007199254740992 ->
  getPost (Post.id p) (store_after (PostPage.handleUpvote None st1) s)
  = Some (set_upvotes (Post.upvotes p + 1) q)
  /\ (PostPage.post st2 = Some p ->
      getPost (Post.id p)
        (store_after (PostPage.handleUpvote None st2)
           (store_after (PostPage.handleUpvote None st1) s))
      = Some (set_upvotes (Post.upvotes p + 1) q)).
Proof.
  intros H1 Hq Hrange.
  assert (Hone : forall st s' q',
             PostPage.post st = Some p ->
             getPost (Post.id p) s' = Some q' ->
             getPost (Post.id p) (store_after (PostPage.handleUpvote None st) s')
             = Some (set_upvotes (Post.upvotes p + 1) q')).
  { intros st s' q' Hst Hq'. unfold store_after, run.
    rewrite (handleUpvote_accepted st _ p Hst). simpl.
    rewrite add_one_exact by exact Hrange.
    now apply getPost_upvoted. }
  split; [now apply Hone|].
  intros H2. rewrite (Hone st2 _ (set_upvotes (Post.upvotes p + 1) q) H2).
  - reflexivity.
  - now apply Hone.
Qed.

Lemma handleUpvote_writes_page_count_witness :
  PostPage.post (PostPage.setPost legacy_post (PostPage.init "p3"))
  = Some legacy_post
  /\ getPost (Post.id legacy_post) (upvoted "p3" 20 sample_store)
     = Some (set_upvotes 20 legacy_post)
  /\ - 9007199254740992 <= Post.upvotes legacy_post < 9007199254740992
  /\ getPost "p3"
       (store_after
          (PostPage.handleUpvote None
             (PostPage.setPost legacy_post (PostPage.init "p3")))
          (upvoted "p3" 20 sample_store))
     = Some (set_upvotes 8 legacy_post)
  /\ getPost "p3"
       (store_after
          (PostPage.handleUpvote None
             (PostPage.setPost legacy_post (PostPage.init "p3")))
          (store_after
             (PostPage.handleUpvote None
                (PostPage.setPost legacy_post (PostPage.init "p3")))
             (upvoted "p3" 20 sample_store)))
     = Some (set_upvotes 8 legacy_post).
Proof.
  assert (H1 : PostPage.post (PostPage.setPost legacy_post (PostPage.init "p3"))
               = Some legacy_post) by reflexivity.
  assert (H2 : getPost (Post.id legacy_post) (upvoted "p3" 20 sample_store)
               = Some (set_upvotes 20 legacy_post)) by reflexivity.
  assert (H3 : - 9007199254740992 <= Post.upvotes legacy_post < 9007199254740992)
    by (simpl; lia).
  split; [exact H1|split; [exact H2|split; [exact H3|]]].
  destruct (handleUpvote_writes_page_count
              (PostPage.setPost legacy_post (PostPage.init "p3"))
              (PostPage.setPost legacy_post (PostPage.init "p3"))
              (upvoted "p3" 20 sample_store)
              legacy_post (set_upvotes 20 legacy_post) H1 H2 H3) as [Hone Htwo].
  split; [exact Hone|exact (Htwo H1)].
Defined.

Lemma upvotes_frame (failures : list (option string)) :
  forall (st : PostPage.State) (w : World) (q : Post.t),
  PostPage.post st = Some q ->
  comments (db (snd (upvotes failures st w))) = comments (db w)
  /\ filter (fun r => negb (Table.has_id (Post.id q) r))
       (posts (db (snd (upvotes failures st w))))
     = filter (fun r => negb (Table.has_id (Post.id q) r)) (posts (db w))
  /\ List.length (posts (db (snd (upvotes failures st w))))
     = List.length (posts (db w)).
Proof.
  induction failures as [|f fs IH]; intros st w q Hst; [simpl; auto|].
  simpl upvotes. unfold bind. destruct f as [e|].
  - rewrite (handleUpvote_refused e st w q Hst).
    exact (IH st
             (mkWorld (db w)
                (trace w ++ [Request Update "posts" (Some ("id", Post.id q))]
                         ++ [ConsoleError "Error upvoting:"]))
             q Hst).
  - rewrite (handleUpvote_accepted st w q Hst).
    destruct (IH (PostPage.setPost
                    (set_upvotes (JS.add_one (Post.upvotes q)) q) st)
                (mkWorld
                   (upvoted (Post.id q) (JS.add_one (Post.upvotes q)) (db w))
                   (trace w ++ [Request Update "posts" (Some ("id", Post.id q))]))
                (set_upvotes (JS.add_one (Post.upvotes q)) q) eq_refl)
      as (Hc & Hp & Hl).
    simpl in Hc, Hp, Hl.
    rewrite Hc, Hp, Hl. unfold upvoted; simpl.
    rewrite filter_other_ids_map by reflexivity.
    now rewrite length_map.
Qed.

(** Upvoting touches nothing but the upvotes of the post of the page:
    whatever the store answers to each upvote, the comments and all other
    posts are as before, no post is added or removed, and the post the
    page shows is the post the store holds. *)
Theorem upvote_frame (s : Store) (i : string) (p : Post.t)
  (failures : list (option string)) :
  getPost i s = Some p ->
  let st' := fst (run (upvote None failures i) s) in
  let s' := store_after (upvote None failures i) s in
  comments s' = comments s
  /\ filter (fun r => negb (Table.has_id i r)) (posts s')
     = filter (fun r => negb (Table.has_id i r)) (posts s)
  /\ List.length (posts s') = List.length (posts s)
  /\ PostPage.post st' = getPost i s'.
Proof.
  intros Hp; cbv zeta. pose proof (getPost_id _ _ _ Hp) as Hid.
  unfold store_after, run, upvote, bind.
  rewrite (PostPage_fetchPost_found _ _ p) by exact Hp.
  destruct (upvotes_frame failures (PostPage.setPost p (PostPage.init i))
              (mkWorld s [Request Select "posts" (Some ("id", i))]) p eq_refl)
    as (Hc & Hposts & Hl).
  destruct (upvotes_count failures (PostPage.setPost p (PostPage.init i))
              (mkWorld s [Request Select "posts" (Some ("id", i))]) p eq_refl)
    as (Hpage & Hstore); [now rewrite Hid|].
  rewrite Hid in *. simpl in Hc, Hposts, Hl.
  repeat split; try assumption.
  exact (eq_trans Hpage (eq_sym Hstore)).
Qed.

Lemma upvote_frame_witness :
  getPost "p1" sample_store = Some transfer_news
  /\ comments (store_after (upvote None [None; None] "p1") sample_store)
     = [great_signing]
  /\ PostPage.post (fst (run (upvote None [None; None] "p1") sample_store))
     = getPost "p1" (store_after (upvote None [None; None] "p1") sample_store).
Proof.
  assert (H : getPost "p1" sample_store = Some transfer_news) by reflexivity.
  split; [exact H|].
  destruct (upvote_frame sample_store "p1" transfer_news [None; None] H)
    as (Hc & _ & _ & Hsync).
  split; [exact Hc|exact Hsync].
Defined.

(* ================================================================== *)
(** ** PostPage: commenting *)
(* ================================================================== *)

(** A comment that is blank after trimming sends no request and changes
    nothing.  An accepted comment is appended to the thread of the page,
    attached to the post of the page, and the draft is cleared.  A refused
    comment is logged, the thread is as before, and the draft is kept. *)
Theorem addComment_outcomes (userId : string) (srv : Remote) (content : string)
  (st : PostPage.State) (s : Store) :
  let st' := fst (run (addComment userId srv content st) s) in
  (JS.trim content = "" ->
   run (addComment userId srv content st) s
   = (PostPage.setNewComment content st, mkWorld s []))
  /\ (JS.trim content <> "" -> failure srv = None ->
      PostPage.comments st'
      = (PostPage.comments st
         ++ [Comment.mk (new_id srv) (PostPage.id st) content (clock srv) userId])%list
      /\ PostPage.newComment st' = ""
      /\ effects (addComment userId srv content st) s
         = [Request Insert "comments" None])
  /\ (JS.trim content <> "" -> failure srv <> None ->
      st' = PostPage.setNewComment content st
      /\ store_after (addComment userId srv content st) s = s
      /\ effects (addComment userId srv content st) s
         = [Request Insert "comments" None; ConsoleError "Error adding comment:"]).
Proof.
  cbv zeta. unfold store_after, effects. rewrite addComment_run.
  split; [|split].
  - intros H. apply truthy_false in H. now rewrite H.
  - intros H Hok. apply truthy_true in H. rewrite H, Hok. simpl. auto.
  - intros H Hko. apply truthy_true in H. rewrite H. simpl.
    destruct (failure srv); [simpl; auto|congruence].
Qed.

Lemma addComment_outcomes_witness :
  JS.trim "  " = ""
  /\ JS.trim "Great signing!" <> ""
  /\ failure working = None
  /\ failure broken <> None
  /\ store_after (addComment "u7" working "  " (PostPage.init "p2")) sample_store
     = sample_store
  /\ PostPage.newComment
       (fst (run (addComment "u7" working "Great signing!" (PostPage.init "p2"))
               sample_store))
     = ""
  /\ PostPage.newComment
       (fst (run (addComment "u7" broken "Great signing!" (PostPage.init "p2"))
               sample_store))
     = "Great signing!".
Proof.
  assert (H1 : JS.trim "  " = "") by reflexivity.
  assert (H2 : JS.trim "Great signing!" <> "") by discriminate.
  assert (H3 : failure working = None) by reflexivity.
  assert (H4 : failure broken <> None) by discriminate.
  repeat (split; [assumption|]).
  split; [|split].
  - unfold store_after.
    now rewrite (proj1 (addComment_outcomes "u7" working "  " (PostPage.init "p2")
                          sample_store) H1).
  - exact (proj1 (proj2 (proj1 (proj2 (addComment_outcomes "u7" working
                                         "Great signing!" (PostPage.init "p2")
                                         sample_store)) H2 H3))).
  - now rewrite (proj1 (proj2 (proj2 (addComment_outcomes "u7" broken
                                        "Great signing!" (PostPage.init "p2")
                                        sample_store)) H2 H4)).
Defined.

(** A comment that the store accepted is in the thread when the page is
    loaded again, and the thread is one comment longer. *)
Theorem addComment_then_fetchComments (userId : string) (srv : Remote)
  (content : string) (st : PostPage.State) (s : Store) :
  JS.trim content <> "" ->
  failure srv = None ->
  let s' := store_after (addComment userId srv content st) s in
  let before := PostPage.comments (fst (run (Thread.fetchComments None st) s)) in
  let after := PostPage.comments (fst (run (Thread.fetchComments None st) s')) in
  In (Comment.mk (new_id srv) (PostPage.id st) content (clock srv) userId) after
  /\ List.length after = S (List.length before).
Proof.
  intros Ht Hok; cbv zeta.
  assert (Hs' : store_after (addComment userId srv content st) s
                = mkStore (posts s)
                    (comments s
                     ++ [Comment.mk (new_id srv) (PostPage.id st) content
                           (clock srv) userId])).
  { unfold store_after. rewrite addComment_run.
    apply truthy_true in Ht. now rewrite Ht, Hok. }
  rewrite Hs'. unfold run. rewrite !fetchComments_run. simpl.
  assert (Hf : filter (Table.of_post (PostPage.id st))
                 (comments s
                  ++ [Comment.mk (new_id srv) (PostPage.id st) content
                        (clock srv) userId])
               = (filter (Table.of_post (PostPage.id st)) (comments s)
                  ++ [Comment.mk (new_id srv) (PostPage.id st) content
                        (clock srv) userId])%list).
  { rewrite filter_app. simpl. unfold Table.of_post at 2. simpl.
    now rewrite String.eqb_refl. }
  rewrite Hf. split.
  - eapply Permutation_in; [symmetry; apply order_by_perm|].
    apply in_app_iff. simpl. auto.
  - rewrite !(Permutation_length (order_by_perm _ _)).
    rewrite length_app. simpl. lia.
Qed.

Lemma addComment_then_fetchComments_witness :
  JS.trim "Agreed" <> ""
  /\ failure working = None
  /\ List.length
       (PostPage.comments
          (fst (run (Thread.fetchComments None (PostPage.init "p1"))
                  (store_after
                     (addComment "u7" working "Agreed" (PostPage.init "p1"))
                     sample_store))))
     = 2%nat.
Proof.
  assert (H1 : JS.trim "Agreed" <> "") by discriminate.
  assert (H2 : failure working = None) by reflexivity.
  split; [exact H1|split; [exact H2|]].
  exact (proj2 (addComment_then_fetchComments "u7" working "Agreed"
                  (PostPage.init "p1") sample_store H1 H2)).
Defined.

(* ================================================================== *)
(** ** PostPage: more on deleting *)
(* ================================================================== *)

Lemma filter_has_id_without (i : string) (l : list Post.t) :
  filter (Table.has_id i) (filter (fun r => negb (Table.has_id i r)) l) = [].
Proof.
  induction l as [|r l IH]; simpl; [reflexivity|].
  destruct (Table.has_id i r) eqn:E; simpl; [exact IH|].
  now rewrite E.
Qed.

(** With a key that is not the stored one, [deletePost] deletes nothing,
    whatever the store answers: the store is left as it was, neither
    delete request is sent, and the operation signals
    [UnauthorizedError]. *)
Theorem deletePost_wrong_key_no_write (s : Store) (i key : string) (p : Post.t)
  (fetchFailure commentsFailure postFailure : option string) :
  getPost i s = Some p ->
  Post.secret_key p <> Some key ->
  run (deletePost fetchFailure commentsFailure postFailure i key) s
  = (tt, mkWorld s
           (Request Select "posts" (Some ("id", i))
            :: match fetchFailure with
               | None => []
               | Some _ => [ConsoleError "Error fetching post:"]
               end
            ++ [UnauthorizedError])).
Proof.
  intros Hp Hk. destruct fetchFailure as [e|].
  - reflexivity.
  - now apply (deletePost_wrong_key _ _ _ p).
Qed.

Lemma deletePost_wrong_key_no_write_witness :
  getPost "p1" sample_store = Some transfer_news
  /\ Post.secret_key transfer_news <> Some "wrong"
  /\ store_after (deletePost None None None "p1" "wrong") sample_store
     = sample_store.
Proof.
  assert (H1 : getPost "p1" sample_store = Some transfer_news) by reflexivity.
  assert (H2 : Post.secret_key transfer_news <> Some "wrong") by discriminate.
  split; [exact H1|split; [exact H2|]].
  unfold store_after.
  now rewrite (deletePost_wrong_key_no_write sample_store "p1" "wrong"
                 transfer_news None None None H1 H2).
Defined.

(** After a delete that the store carried out in full, the page of the
    deleted post loads no post (the error is logged and the page shows
    "Post not found") and no comments, and the feed no longer lists a
    post with this id. *)
Theorem deleted_post_is_gone (s : Store) (i key : string) (p : Post.t)
  (st : Feed.State) (r : Post.t) :
  getPost i s = Some p ->
  Post.secret_key p = Some key ->
  let s' := store_after (deletePost None None None i key) s in
  run (PostPage.fetchPost None (PostPage.init i)) s'
  = (PostPage.init i,
     mkWorld s' [Request Select "posts" (Some ("id", i));
                 ConsoleError "Error fetching post:"])
  /\ PostPage.comments
       (fst (run (Thread.fetchComments None (PostPage.init i)) s'))
     = []
  /\ (In r (Feed.posts (fst (run (Feed.fetchPosts None None st) s'))) ->
      Post.id r <> i).
Proof.
  intros Hp Hk; cbv zeta.
  assert (Hs' : store_after (deletePost None None None i key) s
                = without_post i (without_comments i s)).
  { unfold store_after. now rewrite (deletePost_right_key _ _ _ p). }
  rewrite Hs'. split; [|split].
  - unfold run, PostPage.fetchPost, Table.select_post, send, bind, emit,
      modify, read, ret, console_error. simpl.
    now rewrite filter_has_id_without.
  - unfold run. rewrite fetchComments_run. simpl.
    pose proof (no_comment_left i s) as H. simpl in H. now rewrite H.
  - unfold run. rewrite fetchPosts_run. cbv zeta.
    rewrite fetchCommentCounts_run. simpl.
    intros Hin Hid.
    apply (Permutation_in _ (order_by_perm _ _)) in Hin.
    apply filter_In in Hin. destruct Hin as [_ Hin].
    apply negb_true_iff in Hin. unfold Table.has_id in Hin.
    apply String.eqb_neq in Hin. contradiction.
Qed.

Lemma deleted_post_is_gone_witness :
  getPost "p1" sample_store = Some transfer_news
  /\ Post.secret_key transfer_news = Some "abc"
  /\ PostPage.comments
       (fst (run (Thread.fetchComments None (PostPage.init "p1"))
               (store_after (deletePost None None None "p1" "abc") sample_store)))
     = []
  /\ In open_thread
       (Feed.posts
          (fst (run (Feed.fetchPosts None None Feed.init)
                  (store_after (deletePost None None None "p1" "abc")
                     sample_store))))
  /\ Post.id open_thread <> "p1".
Proof.
  assert (H1 : getPost "p1" sample_store = Some transfer_news) by reflexivity.
  assert (H2 : Post.secret_key transfer_news = Some "abc") by reflexivity.
  assert (H3 : In open_thread
                 (Feed.posts
                    (fst (run (Feed.fetchPosts None None Feed.init)
                            (store_after (deletePost None None None "p1" "abc")
                               sample_store)))))
    by (simpl; auto).
  split; [exact H1|split; [exact H2|]].
  destruct (deleted_post_is_gone sample_store "p1" "abc" transfer_news Feed.init
              open_thread H1 H2) as (_ & Hc & Hfeed).
  split; [exact Hc|split; [exact H3|exact (Hfeed H3)]].
Defined.

Lemma deletePost_post_failure_witness :
  getPost "p1" sample_store = Some transfer_news
  /\ Post.secret_key transfer_news = Some "abc"
  /\ store_after (deletePost None None (Some "503") "p1" "abc") sample_store
     = mkStore [transfer_news; open_thread; legacy_post] [].
Proof.
  assert (H1 : getPost "p1" sample_store = Some transfer_news) by reflexivity.
  assert (H2 : Post.secret_key transfer_news = Some "abc") by reflexivity.
  split; [exact H1|split; [exact H2|]].
  unfold store_after.
  now rewrite (deletePost_post_failure sample_store "p1" "abc" "503"
                 transfer_news H1 H2).
Defined.

(** The post page that no route uses deletes the post without its
    comments: after its delete the post cannot be loaded any more, while
    the thread of that post still lists every comment it had. *)
Theorem variant_delete_orphans (st : PostPage.State) (s : Store) (p : Post.t)
  (c : Comment.t) :
  PostPage.post st = Some p ->
  Post.secret_key p = Some (PostPage.secretKey st) ->
  let s' := store_after (PostPageVariant.handleDelete None st) s in
  effects (PostPageVariant.handleDelete None st) s
  = [Request Delete "posts" (Some ("id", Post.id p)); Navigate "/"]
  /\ getPost (Post.id p) s' = None
  /\ comments s' = comments s
  /\ (In c (PostPage.comments
              (fst (run (Thread.fetchComments None (PostPage.init (Post.id p))) s')))
      <-> In c (comments s) /\ Comment.post_id c = Post.id p).
Proof.
  intros Hp Hk; cbv zeta. apply strict_neq_false in Hk.
  assert (Hrun : run (PostPageVariant.handleDelete None st) s
                 = (st, mkWorld (without_post (Post.id p) s)
                          [Request Delete "posts" (Some ("id", Post.id p));
                           Navigate "/"])).
  { unfold run, PostPageVariant.handleDelete. now rewrite Hp, Hk. }
  unfold effects, store_after. rewrite Hrun. cbn [snd fst db trace].
  split; [reflexivity|split; [apply getPost_without_post|split; [reflexivity|]]].
  unfold run. rewrite fetchComments_run. simpl.
  rewrite <- (String.eqb_eq (Comment.post_id c) (Post.id p)).
  rewrite <- (filter_In (Table.of_post (Post.id p))).
  split; apply Permutation_in;
    [apply order_by_perm|symmetry; apply order_by_perm].
Qed.

Lemma variant_delete_orphans_witness :
  PostPage.post
    (PostPage.setSecretKey "abc" (PostPage.setPost transfer_news (PostPage.init "p1")))
  = Some transfer_news
  /\ Post.secret_key transfer_news = Some "abc"
  /\ comments
       (store_after
          (PostPageVariant.handleDelete None
             (PostPage.setSecretKey "abc"
                (PostPage.setPost transfer_news (PostPage.init "p1"))))
          sample_store)
     = [great_signing]
  /\ getPost "p1"
       (store_after
          (PostPageVariant.handleDelete None
             (PostPage.setSecretKey "abc"
                (PostPage.setPost transfer_news (PostPage.init "p1"))))
          sample_store)
     = None.
Proof.
  split; [reflexivity|split; [reflexivity|]].
  destruct (variant_delete_orphans
              (PostPage.setSecretKey "abc"
                 (PostPage.setPost transfer_news (PostPage.init "p1")))
              sample_store transfer_news great_signing eq_refl eq_refl)
    as (_ & Hgone & Hc & _).
  split; [exact Hc|exact Hgone].
Defined.

(* ================================================================== *)
(** ** EditPost: more on editing *)
(* ================================================================== *)

Lemma or_blank_some (s : string) : EditPost.or_blank (Some s) = s.
Proof. now destruct s. Qed.

Lemma map_only_id (i : string) (f : Post.t -> Post.t) (l : list Post.t) :
  (forall r, In r (filter (Table.has_id i) l) -> f r = r) ->
  map (fun r => if Table.has_id i r then f r else r) l = l.
Proof.
  induction l as [|r l IH]; intros H; simpl; [reflexivity|].
  simpl in H. destruct (Table.has_id i r) eqn:E.
  - rewrite H by now left. rewrite IH; [reflexivity|].
    intros r' Hr'. apply H. now right.
  - now rewrite IH.
Qed.

(** Saving the edit form as it was loaded, with the right key and a title
    that is not blank, changes nothing but null columns: a null content or
    image URL is stored back as the empty string and null flags as the
    empty list.  So the store is left exactly as it was when the content,
    the image URL and the flags of the post are not null. *)
Theorem edit_without_changes (s : Store) (i key : string) (p : Post.t) :
  getPost i s = Some p ->
  Post.secret_key p = Some key ->
  JS.trim (Post.title p) <> "" ->
  let save :=
    st <- EditPost.fetchPost None (EditPost.init i) ;;
    EditPost.handleSubmit None (EditPost.setSecretKey key st) in
  (Post.content p <> None -> Post.image_url p <> None -> Post.flags p <> None ->
   store_after save s = s)
  /\ getPost i (store_after save s)
     = Some (Post.mk (Post.id p) (Post.title p)
               (Some (EditPost.or_blank (Post.content p)))
               (Some (EditPost.or_blank (Post.image_url p)))
               (Post.upvotes p) (Post.created_at p) (Post.user_id p)
               (Post.secret_key p) (Some (EditPost.or_empty (Post.flags p)))
               (Post.repost_id p))
  /\ effects save s
     = [Request Select "posts" (Some ("id", i));
        Request Update "posts" (Some ("id", i));
        Navigate ("/post/" ++ i)].
Proof.
  intros Hp Hk Ht; cbv zeta.
  pose proof (getPost_id _ _ _ Hp) as Hid.
  apply strict_neq_false in Hk. apply truthy_true in Ht.
  assert (Hrun : run (st <- EditPost.fetchPost None (EditPost.init i) ;;
                      EditPost.handleSubmit None (EditPost.setSecretKey key st)) s
                 = (tt, mkWorld
                          (edited i
                             (EditPost.mkForm (Post.title p)
                                (EditPost.or_blank (Post.content p))
                                (EditPost.or_blank (Post.image_url p))
                                (EditPost.or_empty (Post.flags p))) s)
                          [Request Select "posts" (Some ("id", i));
                           Request Update "posts" (Some ("id", i));
                           Navigate ("/post/" ++ i)])).
  { unfold run, bind.
    rewrite (EditPost_fetchPost_found _ _ p) by exact Hp.
    unfold EditPost.handleSubmit; simpl.
    rewrite Hk, Ht, Hid. reflexivity. }
  unfold store_after, effects. rewrite Hrun. cbn [snd db trace].
  split; [|split; [|reflexivity]].
  - intros Hc Him Hfl. pose proof (getPost_rows _ _ _ Hp) as Hrows.
    destruct s as [ps cs]. unfold edited; simpl in *. f_equal.
    apply map_only_id. intros r Hr. rewrite Hrows in Hr.
    destruct Hr as [<-|[]].
    destruct p as [? ? [c|] [im|] ? ? ? ? [fl|] ?]; simpl in *; try congruence.
    destruct c, im; reflexivity.
  - unfold getPost, edited; simpl.
    rewrite filter_has_id_map by reflexivity.
    now rewrite (getPost_rows _ _ _ Hp).
Qed.

Lemma edit_without_changes_witness :
  getPost "p1" sample_store = Some transfer_news
  /\ Post.secret_key transfer_news = Some "abc"
  /\ JS.trim (Post.title transfer_news) <> ""
  /\ Post.content transfer_news <> None
  /\ Post.image_url transfer_news <> None
  /\ Post.flags transfer_news <> None
  /\ store_after
       (st <- EditPost.fetchPost None (EditPost.init "p1") ;;
        EditPost.handleSubmit None (EditPost.setSecretKey "abc" st))
       sample_store
     = sample_store
  /\ getPost "p4" imported_store = Some imported_post
  /\ Post.secret_key imported_post = Some "k"
  /\ JS.trim (Post.title imported_post) <> ""
  /\ getPost "p4"
       (store_after
          (st <- EditPost.fetchPost None (EditPost.init "p4") ;;
           EditPost.handleSubmit None (EditPost.setSecretKey "k" st))
          imported_store)
     = Some (Post.mk "p4" "Imported too" (Some "") (Some "") 2 700 "u5" (Some "k")
               (Some []) None).
Proof.
  assert (H1 : getPost "p1" sample_store = Some transfer_news) by reflexivity.
  assert (H2 : Post.secret_key transfer_news = Some "abc") by reflexivity.
  assert (H3 : JS.trim (Post.title transfer_news) <> "") by discriminate.
  assert (H4 : Post.content transfer_news <> None) by discriminate.
  assert (H5 : Post.image_url transfer_news <> None) by discriminate.
  assert (H6 : Post.flags transfer_news <> None) by discriminate.
  repeat (split; [assumption|]).
  split.
  - exact (proj1 (edit_without_changes sample_store "p1" "abc" transfer_news
                    H1 H2 H3) H4 H5 H6).
  - assert (G1 : getPost "p4" imported_store = Some imported_post) by reflexivity.
    assert (G2 : Post.secret_key imported_post = Some "k") by reflexivity.
    assert (G3 : JS.trim (Post.title imported_post) <> "") by discriminate.
    repeat (split; [assumption|]).
    exact (proj1 (proj2 (edit_without_changes imported_store "p4" "k"
                           imported_post G1 G2 G3))).
Defined.

(** With the right key, [updatePost] refuses a title that is blank after
    trimming with [ValidationError] before any update request, and when
    the store refuses the update the failure is shown; in both cases the
    store is as it was. *)
Theorem updatePost_failures (s : Store) (i key : string) (p : Post.t)
  (fields : EditPost.FormData) (updateFailure : option string) :
  getPost i s = Some p ->
  Post.secret_key p = Some key ->
  (JS.trim (EditPost.title fields) = "" ->
   run (updatePost None updateFailure i key fields) s
   = (tt, mkWorld s [Request Select "posts" (Some ("id", i)); ValidationError]))
  /\ (JS.trim (EditPost.title fields) <> "" -> updateFailure <> None ->
      run (updatePost None updateFailure i key fields) s
      = (tt, mkWorld s
               [Request Select "posts" (Some ("id", i));
                Request Update "posts" (Some ("id", i));
                ConsoleError "Error updating post:";
                Alert "Error updating post. Please try again."])).
Proof.
  intros Hp Hk. rewrite (updatePost_right_key _ _ _ p) by assumption.
  split.
  - intros H. apply truthy_false in H. now rewrite H.
  - intros H Hko. apply truthy_true in H. rewrite H. simpl.
    destruct updateFailure; [reflexivity|congruence].
Qed.

Lemma updatePost_failures_witness :
  getPost "p1" sample_store = Some transfer_news
  /\ Post.secret_key transfer_news = Some "abc"
  /\ JS.trim "   " = ""
  /\ JS.trim "Deadline day" <> ""
  /\ Some "503" <> None
  /\ store_after
       (updatePost None None "p1" "abc" (EditPost.mkForm "   " "x" "" []))
       sample_store
     = sample_store
  /\ store_after
       (updatePost None (Some "503") "p1" "abc"
          (EditPost.mkForm "Deadline day" "x" "" []))
       sample_store
     = sample_store.
Proof.
  assert (H1 : getPost "p1" sample_store = Some transfer_news) by reflexivity.
  assert (H2 : Post.secret_key transfer_news = Some "abc") by reflexivity.
  assert (H3 : JS.trim "   " = "") by reflexivity.
  assert (H4 : JS.trim "Deadline day" <> "") by discriminate.
  assert (H5 : Some "503" <> @None string) by discriminate.
  repeat (split; [assumption|]).
  unfold store_after. split.
  - now rewrite (proj1 (updatePost_failures sample_store "p1" "abc" transfer_news
                          (EditPost.mkForm "   " "x" "" []) None H1 H2) H3).
  - now rewrite (proj2 (updatePost_failures sample_store "p1" "abc" transfer_news
                          (EditPost.mkForm "Deadline day" "x" "" []) (Some "503")
                          H1 H2) H4 H5).
Defined.

(* ================================================================== *)
(** ** CreatePost: what the store holds afterwards *)
(* ================================================================== *)

Lemma filter_all_In {A} (f : A -> bool) (l : list A) :
  (forall x, In x l -> f x = true) -> filter f l = l.
Proof.
  induction l as [|x l IH]; intros H; simpl; [reflexivity|].
  rewrite (H x) by now left. rewrite IH; [reflexivity|].
  intros y Hy. apply H. now right.
Qed.

Lemma filter_none_In {A} (f : A -> bool) (l : list A) :
  (forall x, In x l -> f x = false) -> filter f l = [].
Proof.
  induction l as [|x l IH]; intros H; simpl; [reflexivity|].
  rewrite (H x) by now left. apply IH.
  intros y Hy. apply H. now right.
Qed.

Lemma createPost_accepted (userId : string) (srv : Remote)
  (title content image_url secret_key : string) (flags : list string) (s : Store) :
  JS.trim title <> "" ->
  failure srv = None ->
  store_after (createPost userId srv title content image_url secret_key flags) s
  = mkStore
      (posts s
       ++ [Post.mk (new_id srv) title (Some content) (Some image_url) 0 (clock srv) userId
             (Some secret_key) (Some flags) None])
      (comments s).
Proof.
  intros Ht Hok. unfold store_after. rewrite createPost_run.
  apply truthy_true in Ht. now rewrite Ht, Hok.
Qed.

Lemma created_post_found (row : Post.t) (s : Store) :
  (forall r, In r (posts s) -> Post.id r <> Post.id row) ->
  getPost (Post.id row) (mkStore (posts s ++ [row]) (comments s)) = Some row.
Proof.
  intros Hfresh. unfold getPost; simpl.
  rewrite filter_app. simpl. unfold Table.has_id at 2.
  rewrite String.eqb_refl.
  rewrite filter_none_In; [reflexivity|].
  intros r Hr. apply String.eqb_neq. now apply Hfresh.
Qed.

(** A post that was created can be loaded under the id the store gave it,
    with every field as entered, no upvotes and no repost; every other
    post loads as before and the comments are untouched.  (The store
    gives an id that no post has.) *)
Theorem createPost_then_getPost (userId : string) (srv : Remote)
  (title content image_url secret_key : string) (flags : list string) (s : Store) :
  JS.trim title <> "" ->
  failure srv = None ->
  (forall r, In r (posts s) -> Post.id r <> new_id srv) ->
  let s' := store_after
              (createPost userId srv title content image_url secret_key flags) s in
  getPost (new_id srv) s'
  = Some (Post.mk (new_id srv) title (Some content) (Some image_url) 0 (clock srv) userId
            (Some secret_key) (Some flags) None)
  /\ (forall j, j <> new_id srv -> getPost j s' = getPost j s)
  /\ comments s' = comments s.
Proof.
  intros Ht Hok Hfresh; cbv zeta.
  rewrite createPost_accepted by assumption.
  split; [|split; [|reflexivity]].
  - exact (created_post_found
             (Post.mk (new_id srv) title (Some content) (Some image_url) 0 (clock srv) userId
                (Some secret_key) (Some flags) None) s Hfresh).
  - unfold getPost; simpl. intros j Hj. rewrite filter_app. simpl. unfold Table.has_id at 2. simpl.
    rewrite (proj2 (String.eqb_neq (new_id srv) j)) by congruence.
    now rewrite app_nil_r.
Qed.

Lemma createPost_then_getPost_witness :
  JS.trim "Derby day" <> ""
  /\ failure working = None
  /\ (forall r, In r (posts sample_store) -> Post.id r <> new_id working)
  /\ getPost "p9"
       (store_after (createPost "u7" working "Derby day" "" "" "k" ["News"])
          sample_store)
     = Some (Post.mk "p9" "Derby day" (Some "") (Some "") 0 9000 "u7" (Some "k") (Some ["News"])
               None)
  /\ "p1" <> new_id working
  /\ getPost "p1"
       (store_after (createPost "u7" working "Derby day" "" "" "k" ["News"])
          sample_store)
     = getPost "p1" sample_store.
Proof.
  assert (H1 : JS.trim "Derby day" <> "") by discriminate.
  assert (H2 : failure working = None) by reflexivity.
  assert (H3 : forall r, In r (posts sample_store) -> Post.id r <> new_id working).
  { intros r [<-|[<-|[<-|[]]]]; discriminate. }
  assert (H4 : "p1" <> new_id working) by discriminate.
  split; [exact H1|split; [exact H2|split; [exact H3|]]].
  destruct (createPost_then_getPost "u7" working "Derby day" "" "" "k"
              ["News"] sample_store H1 H2 H3) as (Hnew & Hold & _).
  split; [exact Hnew|split; [exact H4|exact (Hold "p1" H4)]].
Defined.

(** Creating a post and then deleting it with the key entered at creation
    gives back the store as it was; with any other key the delete is
    refused and the post stays.  (The store gives an id that no post has
    and no comment refers to.) *)
Theorem createPost_then_deletePost (userId : string) (srv : Remote)
  (title content image_url secret_key key' : string) (flags : list string)
  (s : Store) :
  JS.trim title <> "" ->
  failure srv = None ->
  (forall r, In r (posts s) -> Post.id r <> new_id srv) ->
  (forall c, In c (comments s) -> Comment.post_id c <> new_id srv) ->
  let s' := store_after
              (createPost userId srv title content image_url secret_key flags) s in
  store_after (deletePost None None None (new_id srv) secret_key) s' = s
  /\ (key' <> secret_key ->
      run (deletePost None None None (new_id srv) key') s'
      = (tt, mkWorld s' [Request Select "posts" (Some ("id", new_id srv));
                         UnauthorizedError])).
Proof.
  intros Ht Hok Hfresh Hnone; cbv zeta.
  rewrite createPost_accepted by assumption.
  pose proof (created_post_found
                (Post.mk (new_id srv) title (Some content) (Some image_url) 0 (clock srv) userId
                   (Some secret_key) (Some flags) None) s Hfresh) as Hget.
  simpl Post.id in Hget.
  split.
  - unfold store_after at 1.
    rewrite (deletePost_right_key _ _ _ _ None None Hget eq_refl).
    unfold without_post, without_comments; simpl.
    rewrite filter_app; simpl. unfold Table.has_id at 2; simpl.
    rewrite String.eqb_refl; simpl. rewrite app_nil_r.
    rewrite !filter_all_In; [now destruct s| |].
    + intros c Hc. apply negb_true_iff, String.eqb_neq. now apply Hnone.
    + intros r Hr. apply negb_true_iff, String.eqb_neq. now apply Hfresh.
  - intros Hk.
    apply (deletePost_wrong_key _ _ _ _ None None Hget).
    simpl. congruence.
Qed.

Lemma createPost_then_deletePost_witness :
  JS.trim "Derby day" <> ""
  /\ failure working = None
  /\ (forall r, In r (posts sample_store) -> Post.id r <> new_id working)
  /\ (forall c, In c (comments sample_store) -> Comment.post_id c <> new_id working)
  /\ "K" <> "k"
  /\ store_after (deletePost None None None "p9" "k")
       (store_after (createPost "u7" working "Derby day" "" "" "k" ["News"])
          sample_store)
     = sample_store
  /\ effects (deletePost None None None "p9" "K")
       (store_after (createPost "u7" working "Derby day" "" "" "k" ["News"])
          sample_store)
     = [Request Select "posts" (Some ("id", "p9")); UnauthorizedError].
Proof.
  assert (H1 : JS.trim "Derby day" <> "") by discriminate.
  assert (H2 : failure working = None) by reflexivity.
  assert (H3 : forall r, In r (posts sample_store) -> Post.id r <> new_id working).
  { intros r [<-|[<-|[<-|[]]]]; discriminate. }
  assert (H4 : forall c, In c (comments sample_store)
                         -> Comment.post_id c <> new_id working).
  { intros c [<-|[]]; discriminate. }
  assert (H5 : "K" <> "k") by discriminate.
  repeat (split; [assumption|]).
  destruct (createPost_then_deletePost "u7" working "Derby day" "" "" "k" "K"
              ["News"] sample_store H1 H2 H3 H4) as [Hback Hrefused].
  split; [exact Hback|].
  exact (f_equal (fun x => trace (snd x)) (Hrefused H5)).
Defined.

(* ================================================================== *)
(** ** What the feed shows, and posts that are not there *)
(* ================================================================== *)

Lemma StronglySorted_filter {A} (R : A -> A -> Prop) (f : A -> bool) (l : list A) :
  StronglySorted R l -> StronglySorted R (filter f l).
Proof.
  intros Hs. induction Hs as [|x l Hs IH Hall]; simpl; [constructor|].
  destruct (f x); [|exact IH].
  constructor; [exact IH|].
  apply Forall_forall. intros y Hy. apply filter_In in Hy.
  rewrite Forall_forall in Hall. now apply Hall.
Qed.

(** Whatever is typed in the search box and whichever category is chosen,
    the cards of the feed are posts that were loaded, and they stay in the
    order of the chosen column, largest first. *)
Theorem feed_view_sorted (countsFailure : option string) (st : Feed.State)
  (s : Store) (searchTerm filterFlag : string) :
  let st' := fst (run (Feed.fetchPosts None countsFailure st) s) in
  let view := HomeFeed.filteredPosts (Feed.posts st') searchTerm filterFlag in
  StronglySorted
    (fun a b => Feed.column (Feed.sort st) b <= Feed.column (Feed.sort st) a)
    view
  /\ incl view (posts s)
  /\ (List.length view <= List.length (posts s))%nat.
Proof.
  cbv zeta. unfold run. rewrite fetchPosts_run. cbv zeta.
  rewrite fetchCommentCounts_run. unfold HomeFeed.filteredPosts.
  destruct countsFailure; simpl; (split; [|split]);
    try (apply StronglySorted_filter, descending_sorted);
    try (intros r Hr; apply filter_In in Hr;
         eapply Permutation_in; [apply order_by_perm|exact (proj1 Hr)]);
    rewrite <- (Permutation_length
                  (order_by_perm (descending (Feed.column (Feed.sort st)))
                     (posts s)));
    apply filter_length_le.
Qed.

Lemma fetchPost_missing (st : PostPage.State) (w : World) :
  getPost (PostPage.id st) (db w) = None ->
  PostPage.fetchPost None st w
  = (st, mkWorld (db w)
           ((trace w ++ [Request Select "posts" (Some ("id", PostPage.id st))])
            ++ [ConsoleError "Error fetching post:"])).
Proof.
  intros H. unfold getPost in H.
  unfold PostPage.fetchPost, Table.select_post, send, bind, emit, modify, read,
    ret, console_error. simpl.
  destruct (filter (Table.has_id (PostPage.id st)) (posts (db w)))
    as [|r [|r' l]]; [reflexivity|discriminate|reflexivity].
Qed.

Lemma EditPost_fetchPost_missing (st : EditPost.State) (w : World) :
  getPost (EditPost.id st) (db w) = None ->
  EditPost.fetchPost None st w
  = (st, mkWorld (db w)
           ((trace w ++ [Request Select "posts" (Some ("id", EditPost.id st))])
            ++ [ConsoleError "Error fetching post:"])).
Proof.
  intros H. unfold getPost in H.
  unfold EditPost.fetchPost, Table.select_post, send, bind, emit, modify, read,
    ret, console_error. simpl.
  destruct (filter (Table.has_id (EditPost.id st)) (posts (db w)))
    as [|r [|r' l]]; [reflexivity|discriminate|reflexivity].
Qed.

(** For an id under which the store has no post to load, the edit and the
    delete are refused with "Invalid secret key" whatever key is given,
    after the failed load is logged, and an upvote sends nothing; the
    store is as it was. *)
Theorem missing_post_refused (s : Store) (i key : string)
  (fields : EditPost.FormData)
  (updateFailure commentsFailure postFailure : option string)
  (failures : list (option string)) :
  getPost i s = None ->
  run (updatePost None updateFailure i key fields) s
  = (tt, mkWorld s [Request Select "posts" (Some ("id", i));
                    ConsoleError "Error fetching post:";
                    UnauthorizedError])
  /\ run (deletePost None commentsFailure postFailure i key) s
     = (tt, mkWorld s [Request Select "posts" (Some ("id", i));
                       ConsoleError "Error fetching post:";
                       UnauthorizedError])
  /\ run (upvote None failures i) s
     = (PostPage.init i,
        mkWorld s [Request Select "posts" (Some ("id", i));
                   ConsoleError "Error fetching post:"]).
Proof.
  intros H. unfold run, updatePost, deletePost, upvote, bind.
  rewrite (EditPost_fetchPost_missing (EditPost.init i)) by exact H.
  rewrite (fetchPost_missing (PostPage.init i)) by exact H.
  split; [reflexivity|split; [reflexivity|]].
  now rewrite upvotes_not_loaded.
Qed.

Lemma missing_post_refused_witness :
  getPost "p7" sample_store = None
  /\ effects (deletePost None None None "p7" "") sample_store
     = [Request Select "posts" (Some ("id", "p7"));
        ConsoleError "Error fetching post:";
        Alert "Invalid secret key"].
Proof.
  assert (H : getPost "p7" sample_store = None) by reflexivity.
  split; [exact H|].
  destruct (missing_post_refused sample_store "p7" ""
              (EditPost.mkForm "t" "" "" []) None None None [] H)
    as (_ & Hdel & _).
  unfold effects. now rewrite Hdel.
Defined.

Lemma fetchComments_thread_witness :
  In great_signing
    (PostPage.comments
       (fst (run (Thread.fetchComments None (PostPage.init "p1")) sample_store)))
  /\ ~ In great_signing
         (PostPage.comments
            (fst (run (Thread.fetchComments None (PostPage.init "p2"))
                    sample_store))).
Proof.
  split.
  - apply (proj1 (fetchComments_thread (PostPage.init "p1") sample_store
                    great_signing)).
    split; [simpl; auto|reflexivity].
  - intros Hin.
    apply (proj1 (fetchComments_thread (PostPage.init "p2") sample_store
                    great_signing)) in Hin.
    destruct Hin as [_ Hin]. discriminate.
Defined.
